(** * prettyresults.dataloader: a shallow embedding and its properties

    The module loads a delimited file into a table, runs the
    metadata-driven preprocessing pass (derived variables, snapshots of
    the original values, type coercion, mandatory checks) and logs
    per-case warnings.  The definitions below follow
    [src/prettyresults/dataloader.py] function by function. *)

From Stdlib Require Import ZArith QArith Bool.
From stdpp Require Import base option list strings gmap.

Open Scope string_scope.
Open Scope list_scope.

(** ** Cells

    A cell of a table is what pandas hands to Python code: a float
    (missing is the float [nan]; the infinities are kept apart from the
    finite numbers, which are read as the rationals they denote) or a
    string. Integer cells are finite numbers as well. *)

Inductive value : Type :=
  | NaN
  | Inf (negative : bool)
  | Num (q : Q)
  | Str (s : string).

(** Exceptions raised by the code or by the library calls it makes. *)
Inductive exn : Type :=
  | KeyError (key : string)
  | TypeError
  | ValueError
  | IndexError
  | AssertionError
  | FileNotFoundError.

Inductive Result (A : Type) : Type :=
  | Ok (a : A)
  | Raise (e : exn).
Arguments Ok {A} a.
Arguments Raise {A} e.

#[global] Instance Result_ret : MRet Result := fun A a => Ok a.
#[global] Instance Result_bind : MBind Result := fun A B f m =>
  match m with
  | Ok a => f a
  | Raise e => Raise e
  end.

Definition is_ok {A} (r : Result A) : bool :=
  match r with Ok _ => true | Raise _ => false end.

(** [for x in xs: acc = body(acc, x)] where [body] may raise. *)
Fixpoint fold_result {A S} (body : S -> A -> Result S) (acc : S) (xs : list A)
    : Result S :=
  match xs with
  | [] => Ok acc
  | x :: xs' => acc' ← body acc x; fold_result body acc' xs'
  end.

(** [pandas.isna] on a cell. *)
Definition isna (v : value) : bool :=
  match v with NaN => true | _ => false end.

(** [numpy.isnan]: defined on floats only. *)
Definition np_isnan (v : value) : Result bool :=
  match v with
  | NaN => Ok true
  | Inf _ | Num _ => Ok false
  | Str _ => Raise TypeError
  end.

(** Python's [==] on cells: [nan] equals nothing, not even itself. *)
Definition py_eq (a b : value) : bool :=
  match a, b with
  | Num p, Num q => Qeq_bool p q
  | Inf s, Inf t => Bool.eqb s t
  | Str s, Str t => bool_decide (s = t)
  | _, _ => false
  end.

(** Python's truth value of a cell, as used by [v1 or v2]. *)
Definition py_bool (v : value) : bool :=
  match v with
  | Num q => negb (Qeq_bool q 0)
  | Str s => negb (bool_decide (s = ""))
  | NaN | Inf _ => true
  end.

Definition py_or (v1 v2 : value) : value := if py_bool v1 then v1 else v2.

(** [v in na_values] for a tuple [na_values]. *)
Definition py_in (v : value) (vs : list value) : bool := existsb (py_eq v) vs.

(** [Series.isin]: like [py_in], but a missing cell matches a missing
    entry of the list. *)
Definition pd_isin (v : value) (vs : list value) : bool :=
  existsb (fun x => py_eq v x || (isna v && isna x)) vs.

Definition DEFAULT_NA_VALUES : list value := [Num 98; Num 99].

(** ** Rows, series, tables *)

(** A row of the table as [iterrows] and [apply(axis=1)] yield it: its
    index label and its cells by column name. *)
Record Row : Type := mkRow {
  label : nat;
  cells : gmap string value;
}.

(** [row[varname]] *)
Definition row_getitem (row : Row) (varname : string) : Result value :=
  match cells row !! varname with
  | Some v => Ok v
  | None => Raise (KeyError varname)
  end.

(** A column, or any other labelled sequence of cells. *)
Definition Series : Type := list (nat * value).

Record DataFrame : Type := mkDataFrame {
  columns : list string;
  rows : list Row;
}.

(** ** The loader and its warning log *)

(** The part of a [DataLoader] that a derivation hook can reach:
    [case_id_fun] and the [_warnings] list. The [variables] registry is
    passed to the methods that read it (it holds the hooks, which take
    the loader as argument). *)
Record DataLoader : Type := mkDataLoader {
  case_id_fun : Row -> string;
  _warnings : list (string * string);
}.

(** Code that runs against a loader: it may raise, and what it appended
    to the log before raising stays there. *)
Definition M (A : Type) : Type := DataLoader -> Result A * DataLoader.

#[global] Instance M_ret : MRet M := fun A a self => (Ok a, self).
#[global] Instance M_bind : MBind M := fun A B f m self =>
  match m self with
  | (Ok a, self') => f a self'
  | (Raise e, self') => (Raise e, self')
  end.

Definition lift {A} (r : Result A) : M A := fun self => (r, self).

(** [for x in xs: body(x)] *)
Fixpoint for_each {A} (body : A -> M unit) (xs : list A) : M unit :=
  match xs with
  | [] => mret tt
  | x :: xs' => body x ≫= fun _ => for_each body xs'
  end.

(** [[f(x) for x in xs]] with an effectful [f] *)
Fixpoint map_M {A B} (f : A -> M B) (xs : list A) : M (list B) :=
  match xs with
  | [] => mret []
  | x :: xs' => y ← f x; ys ← map_M f xs'; mret (y :: ys)
  end.

(** The [case_id] argument of [add_warning]: a string or a row. *)
Inductive CaseRef : Type :=
  | CaseStr (s : string)
  | CaseRow (row : Row).

Definition add_warning (case_id : CaseRef) (text : string) : M unit :=
  fun self =>
    let case_id :=
      match case_id with
      | CaseRow row => case_id_fun self row
      | CaseStr s => s
      end in
    (Ok tt, {| case_id_fun := case_id_fun self;
               _warnings := _warnings self ++ [(case_id, text)] |}).

(** The [on_conflict] argument: a callable or a literal cell. *)
Inductive OnConflict : Type :=
  | Callable (f : value -> value -> value)
  | Literal (v : value).

Section Combinators.

(** Python's [str.format] on a cell is the interpreter's business. *)
Variable format_value : value -> string.

Definition _combine_variables_row (row : Row) (varname1 varname2 : string)
    (on_conflict : OnConflict) (na_values : list value) : M value :=
  v1 ← lift (row_getitem row varname1);
  v2 ← lift (row_getitem row varname2);
  is_nan_1 ← lift (b ← np_isnan v1; mret (b || py_in v1 na_values));
  is_nan_2 ← lift (b ← np_isnan v2; mret (b || py_in v2 na_values));
  if is_nan_1 && is_nan_2 then mret NaN
  else if negb is_nan_1 && is_nan_2 then mret v1
  else if is_nan_1 && negb is_nan_2 then mret v2
  else if py_eq v1 v2 then mret v1
  else
    let res := match on_conflict with
               | Callable f => f v1 v2
               | Literal v => v
               end in
    res_is_nan ← lift (np_isnan res);
    (if res_is_nan : bool
     then add_warning (CaseRow row)
            ("Valores contradictorios: " +:+ varname1 +:+ "=" +:+ format_value v1
             +:+ " vs. " +:+ varname2 +:+ "=" +:+ format_value v2)
     else mret tt);;
    mret res.

Definition _multibool_to_enum_row (row : Row) (variables : list string)
    (na_values : list value) : M value :=
  row_fragment ← lift (mapM (fun v => x ← row_getitem row v; mret (v, x)) variables);
  let num_vars := length variables in
  if (length (filter (fun p => isna p.2 = true) row_fragment)
      + length (filter (fun p => pd_isin p.2 na_values = true) row_fragment)
      =? num_vars)%nat
  then mret NaN
  else
    let true_vars := filter (fun p => py_eq p.2 (Num 1) = true) row_fragment in
    match true_vars with
    | [(varname, _)] => mret (Str varname)
    | _ =>
      let value_list :=
        String.concat ", "
          (map (fun p => p.1 +:+ "=" +:+ format_value p.2) row_fragment) in
      add_warning (CaseRow row)
        ("Multi-bool a enum - valores contradictorios: " +:+ value_list);;
      mret NaN
    end.

End Combinators.

(** ** Table operations (the pandas calls the code makes) *)

(** A cell of the table; columns absent from a row read as missing, which
    cannot be observed on a rectangular table. *)
Definition cell (row : Row) (varname : string) : value :=
  default NaN (cells row !! varname).

Definition set_cell (row : Row) (varname : string) (v : value) : Row :=
  {| label := label row; cells := <[varname := v]> (cells row) |}.

Definition df_index (df : DataFrame) : list nat := map label (rows df).

(** [df[varname]] *)
Definition df_getitem (df : DataFrame) (varname : string) : Result Series :=
  if bool_decide (varname ∈ columns df)
  then Ok (map (fun row => (label row, cell row varname)) (rows df))
  else Raise (KeyError varname).

(** [df[varname] = s] for a series [s]: cell by cell when [s] has the
    index of the table; a table without rows takes the index of a series
    that has entries, its other columns being filled with missing values;
    otherwise [s] is realigned on the labels of the table (which pandas
    refuses when [s] repeats a label). A new name is added last. *)
Definition df_setitem (df : DataFrame) (varname : string) (s : Series)
    : Result DataFrame :=
  let columns' :=
    if bool_decide (varname ∈ columns df) then columns df
    else columns df ++ [varname] in
  if bool_decide (s.*1 = df_index df) then
    Ok {| columns := columns';
          rows := zip_with (fun row p => set_cell row varname p.2) (rows df) s |}
  else if bool_decide (rows df = []) then
    Ok {| columns := columns';
          rows := map (fun p : nat * value =>
                    {| label := p.1;
                       cells := <[varname := p.2]>
                                  (list_to_map (map (fun c => (c, NaN)) (columns df))) |})
                    s |}
  else if bool_decide (NoDup s.*1) then
    Ok {| columns := columns';
          rows := map (fun row =>
                    set_cell row varname
                      (default NaN ((fun x => x.2.2) <$> list_find (fun p => p.1 = label row) s)))
                    (rows df) |}
  else Raise ValueError.

(** [df.apply(f, axis=1)] *)
Definition df_apply (df : DataFrame) (f : Row -> M value) : M Series :=
  map_M (fun row => v ← f row; mret (label row, v)) (rows df).

(** [df.dropna(subset=[varname], inplace=True)] *)
Definition dropna (df : DataFrame) (varname : string) : DataFrame :=
  {| columns := columns df;
     rows := filter (fun row => isna (cell row varname) = false) (rows df) |}.

(** ** Derivation hooks and the combinators that build them *)

Definition Hook : Type := DataFrame -> M Series.

Section Hooks.

Variable format_value : value -> string.

Definition combine_variables (varname1 varname2 : string)
    (on_conflict : OnConflict) (na_values : list value) : Hook :=
  fun df =>
    df_apply df (fun row =>
      _combine_variables_row format_value row varname1 varname2 on_conflict na_values).

Definition combine_variables_bool (varname1 varname2 : string)
    (na_values : list value) : Hook :=
  combine_variables varname1 varname2 (Callable py_or) na_values.

Definition multibool_to_enum (variables : list string) (na_values : list value)
    : Hook :=
  fun df =>
    df_apply df (fun row =>
      _multibool_to_enum_row format_value row variables na_values).

End Hooks.

(** [df[vname] == x], a boolean mask over the rows. *)
Definition eq_mask (df : DataFrame) (vname : string) (x : value) : Result (list bool) :=
  s ← df_getitem df vname; mret (map (fun p => py_eq p.2 x) s).

(** [result_series[mask] = x] *)
Definition mask_assign (s : Series) (mask : list bool) (x : value) : Series :=
  zip_with (fun p (b : bool) => if b then (p.1, x) else p) s mask.

Definition _logical_op
    (true_combinator false_combinator : list bool -> list bool -> list bool)
    (varnames : list string) : Result Hook :=
  if bool_decide (2 <= length varnames) then
    Ok (fun df => lift (
      true_values ← eq_mask df (default "" (head varnames)) (Num 1);
      false_values ← eq_mask df (default "" (head varnames)) (Num 0);
      masks ← fold_result (fun (acc : list bool * list bool) vname =>
                 t ← eq_mask df vname (Num 1);
                 f ← eq_mask df vname (Num 0);
                 mret (true_combinator acc.1 t, false_combinator acc.2 f))
               (true_values, false_values) varnames;
      let result_series := map (fun i => (i, NaN)) (df_index df) in
      let result_series := mask_assign result_series masks.1 (Num 1) in
      let result_series := mask_assign result_series masks.2 (Num 0) in
      mret result_series))
  else Raise AssertionError.

Definition logical_or (varnames : list string) : Result Hook :=
  _logical_op (zip_with orb) (zip_with andb) varnames.

Definition logical_and (varnames : list string) : Result Hook :=
  _logical_op (zip_with andb) (zip_with orb) varnames.

(** ** The variable registry *)

(** Modelled from the spec: the [VarType] enumeration of [utils], which
    this file imports; the spec names Int, Bool, Category and Float and
    leaves room for further types. *)
Module VarType.
Inductive t : Type := Int | Bool | Category | Float | Other.
End VarType.

(** The [labels] entry of a Category variable: a dict from raw value to a
    tuple whose first component is the display value, and whether that
    dict is an [OrderedDict]. *)
Record Labels : Type := mkLabels {
  ordered : bool;
  items : list (value * list value);
}.

(** The metadata dict of one variable. A computation key can be absent
    ([None]), bound to [None] ([Some None]) or bound to a hook. *)
Record VarSpec : Type := mkVarSpec {
  type : VarType.t;
  labels : option Labels;
  mandatory : bool;
  computation_pre : option (option Hook);
  computation_post : option (option Hook);
}.

(** [self.variables]: a dict, iterated in insertion order. *)
Definition Registry : Type := list (string * VarSpec).

(** [self.variables[varname]] *)
Definition variables_getitem (variables : Registry) (varname : string)
    : Result VarSpec :=
  match (list_to_map variables : gmap string VarSpec) !! varname with
  | Some var => Ok var
  | None => Raise (KeyError varname)
  end.

(** ** Type coercion *)

(** What [CategoricalDtype] and [rename_categories] demand of a list of
    categories: no missing value and no repetition. *)
Fixpoint distinct (cats : list value) : bool :=
  match cats with
  | [] => true
  | c :: cats' => negb (existsb (py_eq c) cats') && distinct cats'
  end.

Definition categories_valid (cats : list value) : bool :=
  forallb (fun c => negb (isna c)) cats && distinct cats.

(** The Category branch: cells that match no label become missing, the
    others are renamed to the first component of their label's entry. *)
Definition coerce_category (labels : Labels) (s : Series) : Result Series :=
  if negb (categories_valid (items labels).*1) then Raise ValueError
  else
    cat_map ← mapM (fun kv : value * list value =>
                 match kv.2 with
                 | x :: _ => Ok (kv.1, x)
                 | [] => Raise IndexError
                 end) (items labels);
    if negb (categories_valid cat_map.*2) then Raise ValueError
    else
      Ok (map (fun p : nat * value =>
                 (p.1, default NaN
                         (snd <$> List.find (fun kv => py_eq p.2 kv.1) cat_map)))
              s).

(** [df.loc[mask, [varname]] = v] *)
Definition df_loc_setitem (df : DataFrame) (mask : list bool) (varname : string)
    (v : value) : DataFrame :=
  {| columns := columns df;
     rows := zip_with (fun row (b : bool) => if b then set_cell row varname v else row)
               (rows df) mask |}.

Definition INT64_MIN : Z := - 2 ^ 63.
Definition INT64_MAX : Z := 2 ^ 63 - 1.

Section Pipeline.

(** Python's [int] on a string. *)
Variable int_of_str : string -> option Z.

(** [Series.astype(np.int64)] on one cell: missing values and
    infinities cannot be converted, finite numbers are truncated
    towards zero (and land on [INT64_MIN] when out of range, as the
    conversion does on x86-64), strings go through [int]. *)
Definition astype_int64_cell (v : value) : Result value :=
  match v with
  | NaN | Inf _ => Raise ValueError
  | Num q =>
    let z := (Qnum q ÷ Z.pos (Qden q))%Z in
    Ok (Num (inject_Z (if bool_decide (INT64_MIN ≤ z ≤ INT64_MAX)%Z
                       then z else INT64_MIN)))
  | Str s =>
    match int_of_str s with
    | Some z =>
      if bool_decide (INT64_MIN ≤ z ≤ INT64_MAX)%Z then Ok (Num (inject_Z z))
      else Raise ValueError
    | None => Raise ValueError
    end
  end.

Definition astype_int64 (s : Series) : Result Series :=
  mapM (fun p : nat * value => v ← astype_int64_cell p.2; mret (p.1, v)) s.

(** ** The methods of [DataLoader] *)

Definition _drop_na (df : DataFrame) (varname : string) : M DataFrame :=
  _ ← lift (df_getitem df varname);
  let lost_cases :=
    filter (fun row => isna (cell row varname) = true) (rows df) in
  if bool_decide (length lost_cases ≠ 0%nat) then
    for_each (fun row => add_warning (CaseRow row) (varname +:+ " perdida"))
      lost_cases;;
    mret (dropna df varname)
  else mret df.

Fixpoint _compute_derived (variables : Registry)
    (calculation_key : VarSpec -> option (option Hook)) (df : DataFrame)
    : M DataFrame :=
  match variables with
  | [] => mret df
  | (varname, var) :: variables' =>
    match calculation_key var with
    | Some (Some fun_) =>
      s ← fun_ df;
      df' ← lift (df_setitem df varname s);
      _compute_derived variables' calculation_key df'
    | _ => _compute_derived variables' calculation_key df
    end
  end.

(** The three blocks of the body of the loop of [_preprocess], named
    after the comments that head them in the source. *)

(** "Store the original value": [df[varname + '_ORIGINAL'] = df[varname]] *)
Definition store_original (df : DataFrame) (varname : string) : Result DataFrame :=
  s ← df_getitem df varname;
  df_setitem df (varname +:+ "_ORIGINAL") s.

(** "Convert to adequate type" *)
Definition convert_type (vardata : VarSpec) (df : DataFrame) (varname : string)
    : Result DataFrame :=
  match type vardata with
  | VarType.Category =>
    match labels vardata with
    | Some labels =>
      s ← df_getitem df varname;
      s' ← coerce_category labels s;
      df_setitem df varname s'
    | None => Raise (KeyError "labels")
    end
  | VarType.Bool =>
    s ← df_getitem df varname;
    mret (df_loc_setitem df
            (map (fun p => negb (pd_isin p.2 [Num 0; Num 1])) s)
            varname NaN)
  | _ => mret df
  end.

(** [df[varname] = df[varname].astype(np.int64)] *)
Definition convert_int64 (df : DataFrame) (varname : string) : Result DataFrame :=
  s ← df_getitem df varname;
  s' ← astype_int64 s;
  df_setitem df varname s'.

(** "Mandatory checking" *)
Definition check_mandatory (vardata : VarSpec) (df : DataFrame) (varname : string)
    : M DataFrame :=
  if mandatory vardata then
    df ← _drop_na df varname;
    (* Further conversion can be done if no NaN is present *)
    match type vardata with
    | VarType.Int => lift (convert_int64 df varname)
    | _ => mret df
    end
  else mret df.

(** The body of the loop of [_preprocess], for one column name. *)
Definition _preprocess_column (variables : Registry) (df : DataFrame)
    (varname : string) : M DataFrame :=
  vardata ← lift (variables_getitem variables varname);
  df ← lift (store_original df varname);
  df ← lift (convert_type vardata df varname);
  check_mandatory vardata df varname.

(** [for varname in df: ...], over the column names the table has when
    the loop starts. *)
Fixpoint _preprocess_loop (variables : Registry) (varnames : list string)
    (df : DataFrame) : M DataFrame :=
  match varnames with
  | [] => mret df
  | varname :: varnames' =>
    df' ← _preprocess_column variables df varname;
    _preprocess_loop variables varnames' df'
  end.

Definition _preprocess (variables : Registry) (df : DataFrame) : M DataFrame :=
  df ← _compute_derived variables computation_pre df;
  df ← _preprocess_loop variables (columns df) df;
  _compute_derived variables computation_post df.

End Pipeline.

(** ** The file, the report and [load_data] *)

(** A delimited file as [pandas.read_csv] sees it after splitting: the
    header and the records, every field still text. *)
Record CsvFile : Type := mkCsvFile {
  header : list string;
  records : list (list string);
}.

(** Modelled from the spec: the report tree, of which the loader uses
    [get_result(logical_id).add_table(table_id, title, headings, rows)]
    only. The tree is kept as the list of the tables published so far. *)
Record TableResult : Type := mkTableResult {
  parent_id : string;
  table_id : string;
  title : string;
  headings : list string;
  table_rows : list (string * string);
}.

Definition ResultTree : Type := list TableResult.

Definition add_table (ctx : ResultTree) (logical_id table_id title : string)
    (headings : list string) (rows : list (string * string)) : ResultTree :=
  ctx ++ [mkTableResult logical_id table_id title headings rows].

(** [k not in var] for both computation keys. *)
Definition no_computation_key (var : VarSpec) : bool :=
  negb (bool_decide (is_Some (computation_pre var)))
  && negb (bool_decide (is_Some (computation_post var))).

Definition csv_varnames (variables : Registry) : list string :=
  map fst (List.filter (fun p => no_computation_key p.2) variables).

Section Load.

Variable int_of_str : string -> option Z.

(** The conversion [read_csv] applies to a field that is no missing
    value marker. *)
Variable parse_field : string -> value.

(** [pandas.read_csv(fname, usecols=usecols, na_values=na_values)], as
    documented: a missing file and a name of [usecols] that the header
    lacks are errors; the result keeps the columns of [usecols] in the
    order of the file, the rows are labelled 0, 1, ... and the fields
    listed in [na_values] are read as missing. *)
Definition read_csv (files : gmap string CsvFile) (fname : string)
    (usecols : list string) (na_values : list string) : Result DataFrame :=
  match files !! fname with
  | None => Raise FileNotFoundError
  | Some file =>
    if bool_decide (Forall (fun c => c ∈ header file) usecols) then
      let read_field (field : string) :=
        if bool_decide (field ∈ na_values) then NaN else parse_field field in
      Ok {| columns := filter (fun c => c ∈ usecols) (header file);
            rows := imap (fun i record =>
                      {| label := i;
                         cells := list_to_map
                                    (filter (fun p => p.1 ∈ usecols)
                                       (zip (header file) (map read_field record))) |})
                    (records file) |}
    else Raise ValueError
  end.

Definition load_data (variables : Registry) (files : gmap string CsvFile)
    (fname : string) (ctx : ResultTree) (na_values : list string)
    (self : DataLoader) : Result DataFrame * DataLoader * ResultTree :=
  match read_csv files fname (csv_varnames variables) na_values with
  | Raise e => (Raise e, self, ctx)
  | Ok df =>
    match _preprocess int_of_str variables df self with
    | (Raise e, self') => (Raise e, self', ctx)
    | (Ok df', self') =>
      (Ok df', self',
       add_table ctx "root" "warnings" "Warnings" ["Caso"; ""] (_warnings self'))
    end
  end.

End Load.

(** ** Vocabulary of the statements *)

(** The loader after [ws] has been appended to its log. *)
Definition logged (self : DataLoader) (ws : list (string * string)) : DataLoader :=
  {| case_id_fun := case_id_fun self; _warnings := _warnings self ++ ws |}.

(** A cell [numpy.isnan] accepts: a float. *)
Definition is_float (v : value) : Prop := is_ok (np_isnan v) = true.

(** "missing or in [na_values]" *)
Definition missing_or_na (na_values : list value) (v : value) : bool :=
  isna v || py_in v na_values.

(** The value [on_conflict] resolves a conflict to. *)
Definition resolve (on_conflict : OnConflict) (v1 v2 : value) : value :=
  match on_conflict with
  | Callable f => f v1 v2
  | Literal v => v
  end.

(** Both values present and different. *)
Definition in_conflict (na_values : list value) (v1 v2 : value) : bool :=
  negb (missing_or_na na_values v1) && negb (missing_or_na na_values v2)
  && negb (py_eq v1 v2).

Definition conflict_message (format_value : value -> string)
    (varname1 varname2 : string) (v1 v2 : value) : string :=
  "Valores contradictorios: " +:+ varname1 +:+ "=" +:+ format_value v1
  +:+ " vs. " +:+ varname2 +:+ "=" +:+ format_value v2.

(** What the row function returns and logs, as one expression. *)
Definition combine_value (on_conflict : OnConflict) (na_values : list value)
    (v1 v2 : value) : value :=
  if missing_or_na na_values v1 && missing_or_na na_values v2 then NaN
  else if missing_or_na na_values v2 then v1
  else if missing_or_na na_values v1 then v2
  else if py_eq v1 v2 then v1
  else resolve on_conflict v1 v2.

Definition combine_warnings (format_value : value -> string)
    (varname1 varname2 : string)
    (on_conflict : OnConflict) (na_values : list value)
    (case_id : Row -> string) (row : Row) : list (string * string) :=
  let v1 := cell row varname1 in
  let v2 := cell row varname2 in
  if in_conflict na_values v1 v2 && isna (resolve on_conflict v1 v2)
  then [(case_id row, conflict_message format_value varname1 varname2 v1 v2)]
  else [].

(** ** Sample data for the examples *)

Definition sample_format (v : value) : string :=
  match v with
  | NaN => "nan"
  | Inf true => "-inf"
  | Inf false => "inf"
  | Num q =>
    if Qeq_bool q 0 then "0.0" else if Qeq_bool q 1 then "1.0"
    else if Qeq_bool q 5 then "5.0" else if Qeq_bool q 7 then "7.0" else "#"
  | Str s => s
  end.

(** Cases are identified by their [ID] cell. *)
Definition sample_loader : DataLoader :=
  {| case_id_fun := fun row =>
       match cells row !! "ID" with Some (Str s) => s | _ => "?" end;
     _warnings := [] |}.

Definition sample_row (i : nat) (id : string) (a b : value) : Row :=
  {| label := i; cells := {[ "ID" := Str id; "A" := a; "B" := b ]} |}.

Definition sample_df : DataFrame :=
  {| columns := ["ID"; "A"; "B"];
     rows := [ sample_row 0 "c0" (Num 5) (Num 5);
               sample_row 1 "c1" (Num 5) NaN;
               sample_row 2 "c2" NaN (Num 99);
               sample_row 3 "c3" (Num 5) (Num 7) ] |}.

(** ** Vocabulary for [multibool_to_enum] *)

(** Every listed variable is missing or in [na_values]. *)
Definition all_missing (na_values : list value) (row : Row)
    (variables : list string) : bool :=
  forallb (fun v => missing_or_na na_values (cell row v)) variables.

(** The listed variables whose value equals 1.0. *)
Definition true_vars (row : Row) (variables : list string) : list string :=
  filter (fun v => py_eq (cell row v) (Num 1) = true) variables.

Definition multibool_message (format_value : value -> string) (row : Row)
    (variables : list string) : string :=
  "Multi-bool a enum - valores contradictorios: "
  +:+ String.concat ", "
        (map (fun v => v +:+ "=" +:+ format_value (cell row v)) variables).

(** The test the code makes for "all missing": the missing cells and the
    cells [isin] finds in [na_values], counted apart and added up. *)
Definition counted_missing (na_values : list value) (row : Row)
    (variables : list string) : bool :=
  (length (filter (fun v => isna (cell row v) = true) variables)
   + length (filter (fun v => pd_isin (cell row v) na_values = true) variables)
   =? length variables)%nat.

Definition multibool_value (na_values : list value) (row : Row)
    (variables : list string) : value :=
  if counted_missing na_values row variables then NaN
  else match true_vars row variables with
       | [varname] => Str varname
       | _ => NaN
       end.

Definition multibool_warnings (format_value : value -> string)
    (variables : list string) (na_values : list value)
    (case_id : Row -> string) (row : Row) : list (string * string) :=
  if counted_missing na_values row variables then []
  else match true_vars row variables with
       | [_] => []
       | _ => [(case_id row, multibool_message format_value row variables)]
       end.

Definition onehot_row (i : nat) (id : string) (a b c : value) : Row :=
  {| label := i; cells := {[ "ID" := Str id; "A" := a; "B" := b; "C" := c ]} |}.

Definition onehot_df : DataFrame :=
  {| columns := ["ID"; "A"; "B"; "C"];
     rows := [ onehot_row 0 "c0" (Num 1) (Num 0) (Num 0);
               onehot_row 1 "c1" (Num 1) (Num 1) (Num 0);
               onehot_row 2 "c2" NaN NaN NaN ] |}.

Definition bool_df : DataFrame :=
  {| columns := ["ID"; "A"; "B"];
     rows := [ sample_row 0 "c0" (Num 1) NaN;
               sample_row 1 "c1" (Num 0) (Num 0);
               sample_row 2 "c2" (Num 0) NaN ] |}.

(** ** Vocabulary for the preprocessing pass *)

(** No row of the table has a missing value in column [varname]. *)
Definition no_missing (df : DataFrame) (varname : string) : Prop :=
  forall row, row ∈ rows df -> isna (cell row varname) = false.

(** [survive R rows rows']: the rows of [rows'] are rows of [rows], in
    the same order, none twice, each related to what it was by [R]; the
    other rows of [rows] were dropped. *)
Inductive survive (R : Row -> Row -> Prop) : list Row -> list Row -> Prop :=
  | survive_nil : survive R [] []
  | survive_keep r r' l l' :
      R r r' -> survive R l l' -> survive R (r :: l) (r' :: l')
  | survive_drop r l l' : survive R l l' -> survive R (r :: l) l'.

(** The same row, except perhaps for the cells of the columns [written]. *)
Definition same_but (written : list string) (r r' : Row) : Prop :=
  label r' = label r
  /\ forall c, c ∉ written -> cell r' c = cell r c.


(** A hook that only appends to the warning log. *)
Definition hook_appends (h : Hook) : Prop :=
  forall df self, exists ws, (h df self).2 = logged self ws.


(** The hooks of a registry, under either computation key. *)
Definition hook_of (variables : Registry) (h : Hook) : Prop :=
  exists varname var,
    (varname, var) ∈ variables
    /\ (computation_pre var = Some (Some h) \/ computation_post var = Some (Some h)).

(** What one turn of the loop of [_preprocess] does to a row it keeps:
    the snapshot column holds what [varname] held, and no column other
    than these two changed. *)
Definition column_step (varname : string) (r r' : Row) : Prop :=
  label r' = label r
  /\ cell r' (varname +:+ "_ORIGINAL") = cell r varname
  /\ forall c, c ≠ varname -> c ≠ varname +:+ "_ORIGINAL" -> cell r' c = cell r c.

(** The variables a pass of [_compute_derived] computes: those whose
    [calculation_key] entry is a hook. *)
Definition derived_names (calculation_key : VarSpec -> option (option Hook))
    (variables : Registry) : list string :=
  omap (fun p : string * VarSpec =>
          match calculation_key p.2 with
          | Some (Some _) => Some p.1
          | _ => None
          end) variables.

(** A reading of Python's [int] on a string, for the examples: an
    optional minus sign and decimal digits. *)
Fixpoint digits_value (s : string) (acc : Z) : option Z :=
  match s with
  | "" => Some acc
  | String c s' =>
    let n := Ascii.nat_of_ascii c in
    if bool_decide (48 <= n <= 57)%nat
    then digits_value s' (10 * acc + Z.of_nat (n - 48))%Z
    else None
  end.

Definition sample_int_of_str (s : string) : option Z :=
  match s with
  | "" => None
  | String c s' =>
    if bool_decide (Ascii.nat_of_ascii c = 45%nat)
    then (if bool_decide (s' = "") then None else Z.opp <$> digits_value s' 0)
    else digits_value s 0
  end.

Definition plain (t : VarType.t) (is_mandatory : bool) : VarSpec :=
  {| type := t; labels := None; mandatory := is_mandatory;
     computation_pre := None; computation_post := None |}.

Definition sample_labels : Labels :=
  {| ordered := false;
     items := [(Num 1, [Str "Hombre"]); (Num 2, [Str "Mujer"])] |}.

(** A registry with one variable of each kind and one derived variable. *)
Definition sample_variables : Registry :=
  [ ("ID", plain VarType.Other false);
    ("AGE", plain VarType.Int true);
    ("SMOKER", plain VarType.Bool true);
    ("SEX", {| type := VarType.Category; labels := Some sample_labels;
               mandatory := false;
               computation_pre := None; computation_post := None |});
    ("A", plain VarType.Float false);
    ("B", plain VarType.Float false);
    ("AB", {| type := VarType.Float; labels := None; mandatory := false;
              computation_pre :=
                Some (Some (combine_variables sample_format "A" "B"
                              (Literal NaN) DEFAULT_NA_VALUES));
              computation_post := None |}) ].

Definition person (i : nat) (id : string) (age smoker sex a b : value) : Row :=
  {| label := i;
     cells := {[ "ID" := Str id; "AGE" := age; "SMOKER" := smoker; "SEX" := sex;
                 "A" := a; "B" := b ]} |}.

Definition people_df : DataFrame :=
  {| columns := ["ID"; "AGE"; "SMOKER"; "SEX"; "A"; "B"];
     rows := [ person 0 "c0" (Num 34) (Num 1) (Num 1) (Num 5) (Num 5);
               person 1 "c1" NaN (Num 0) (Num 2) (Num 5) NaN;
               person 2 "c2" (Num 51) (Num 3) (Num 9) (Num 5) (Num 7) ] |}.

(** A registry whose mandatory variable is computed by the last pass. *)
Definition late_variables : Registry :=
  [ ("A", plain VarType.Float false);
    ("B", plain VarType.Float false);
    ("AB", {| type := VarType.Float; labels := None; mandatory := true;
              computation_pre := None;
              computation_post :=
                Some (Some (combine_variables sample_format "A" "B"
                              (Literal NaN) DEFAULT_NA_VALUES)) |}) ].

Definition late_df : DataFrame :=
  {| columns := ["A"; "B"];
     rows := [ {| label := 0; cells := {[ "A" := NaN; "B" := NaN ]} |} ] |}.

(** A registry that declares a variable under the snapshot name of
    another one. *)
Definition clash_variables : Registry :=
  [ ("A", plain VarType.Float false);
    ("A_ORIGINAL", plain VarType.Bool false) ].

Definition clash_df : DataFrame :=
  {| columns := ["A"; "A_ORIGINAL"];
     rows := [ {| label := 0; cells := {[ "A" := Num 5; "A_ORIGINAL" := Num 7 ]} |} ] |}.

(** Code that only appends to the warning log, whether it returns or
    raises. *)
Definition appends {A} (m : M A) : Prop :=
  forall self, exists ws, (m self).2 = logged self ws.

(** A reading of the fields of a file, for the examples: digits are
    numbers, "inf" is the infinite float, anything else is text. *)
Definition sample_parse_field (field : string) : value :=
  if bool_decide (field = "inf") then Inf false
  else match sample_int_of_str field with
       | Some z => Num (inject_Z z)
       | None => Str field
       end.

Definition sample_files : gmap string CsvFile :=
  {[ "people.csv" :=
       {| header := ["ID"; "AGE"; "SMOKER"; "SEX"; "A"; "B"; "NOTES"];
          records := [ ["c0"; "34"; "1"; "1"; "5"; "5"; "x"];
                       ["c1"; " "; "0"; "2"; "5"; " "; "y"];
                       ["c2"; "51"; "3"; "9"; "5"; "7"; "z"] ] |};
     "short.csv" :=
       {| header := ["ID"; "AGE"];
          records := [ ["c0"; "34"] ] |};
     "inf.csv" :=
       {| header := ["ID"; "AGE"; "SMOKER"; "SEX"; "A"; "B"];
          records := [ ["c0"; "inf"; "1"; "1"; "5"; "5"] ] |} ]}.


(** ** Vocabulary for the completion of the preprocessing pass *)






(** A boolean-coded cell: missing, 0.0 or 1.0. *)
Definition boolean_coded (v : value) : Prop :=
  isna v = true \/ py_eq v (Num 0) = true \/ py_eq v (Num 1) = true.

(** A whole number that fits 64 bits. *)
Definition int64_coded (v : value) : Prop :=
  exists z : Z, v = Num (inject_Z z) /\ (INT64_MIN ≤ z ≤ INT64_MAX)%Z.

(** A registry with a variable whose 'computation-pre' key is bound to
    [None]. *)
Definition ghost_variables : Registry :=
  [ ("ID", plain VarType.Other false);
    ("GHOST", {| type := VarType.Float; labels := None; mandatory := true;
                 computation_pre := Some None; computation_post := None |}) ].

(** A hook whose series, when it returns one, carries the index of the
    table it was given (as [df.apply(..., axis=1)] and
    [pd.Series(..., index=df.index)] do). *)
Definition hook_aligned (h : Hook) : Prop :=
  forall df self s self', h df self = (Ok s, self') -> s.*1 = df_index df.

(** The hooks of one pass of [_compute_derived] are aligned. *)
Definition pass_aligned (calculation_key : VarSpec -> option (option Hook))
    (variables : Registry) : Prop :=
  forall varname var h,
    (varname, var) ∈ variables ->
    calculation_key var = Some (Some h) -> hook_aligned h.

(** Two rows in conflict: a zero beside 7.0, and a one beside a zero. *)
Definition conflict_df : DataFrame :=
  {| columns := ["ID"; "A"; "B"];
     rows := [ sample_row 0 "c0" (Num 0) (Num 7);
               sample_row 1 "c1" (Num 1) (Num 0) ] |}.

(** * Properties *)

(** ** The monad and the log *)

Ltac unfold_monad :=
  unfold mbind, mret, M_bind, M_ret, Result_bind, Result_ret, lift in *.

Lemma logged_nil self : logged self [] = self.
Proof. destruct self; unfold logged; simpl. by rewrite app_nil_r. Qed.

Lemma logged_logged self ws1 ws2 :
  logged (logged self ws1) ws2 = logged self (ws1 ++ ws2).
Proof. unfold logged; simpl. by rewrite app_assoc. Qed.

Lemma add_warning_row row text self :
  add_warning (CaseRow row) text self
  = (Ok tt, logged self [(case_id_fun self row, text)]).
Proof. reflexivity. Qed.

(** A loop whose body only returns a value and appends to the log does
    so as a whole. *)
Lemma map_M_logged {A B} (f : A -> M B) (g : A -> B)
    (w : (Row -> string) -> A -> list (string * string)) (xs : list A) :
  (forall x self, x ∈ xs ->
     f x self = (Ok (g x), logged self (w (case_id_fun self) x))) ->
  forall self,
    map_M f xs self
    = (Ok (map g xs), logged self (concat (map (w (case_id_fun self)) xs))).
Proof.
  induction xs as [|x xs IH]; intros Hf self; simpl.
  - by rewrite logged_nil.
  - unfold_monad. rewrite Hf by left.
    rewrite IH by (intros; apply Hf; by right). simpl.
    by rewrite logged_logged.
Qed.

Lemma for_each_logged {A} (body : A -> M unit)
    (w : (Row -> string) -> A -> list (string * string)) (xs : list A) :
  (forall x self, x ∈ xs ->
     body x self = (Ok tt, logged self (w (case_id_fun self) x))) ->
  forall self,
    for_each body xs self
    = (Ok tt, logged self (concat (map (w (case_id_fun self)) xs))).
Proof.
  induction xs as [|x xs IH]; intros Hf self; simpl.
  - by rewrite logged_nil.
  - unfold_monad. rewrite Hf by left.
    rewrite IH by (intros; apply Hf; by right). simpl.
    by rewrite logged_logged.
Qed.

(** ** [combine_variables] *)

Section CombineVariables.

Variable format_value : value -> string.

Lemma np_isnan_float v : is_float v -> np_isnan v = Ok (isna v).
Proof. by destruct v. Qed.

Lemma _combine_variables_row_eq row varname1 varname2 on_conflict na_values self :
  is_Some (cells row !! varname1) ->
  is_Some (cells row !! varname2) ->
  is_float (cell row varname1) ->
  is_float (cell row varname2) ->
  (in_conflict na_values (cell row varname1) (cell row varname2) = true ->
   is_float (resolve on_conflict (cell row varname1) (cell row varname2))) ->
  _combine_variables_row format_value row varname1 varname2 on_conflict na_values self
  = (Ok (combine_value on_conflict na_values (cell row varname1) (cell row varname2)),
     logged self
       (combine_warnings format_value varname1 varname2 on_conflict na_values
          (case_id_fun self) row)).
Proof.
  unfold combine_warnings, cell.
  intros [v1 E1] [v2 E2]. rewrite E1, E2. simpl. intros F1 F2 Fres.
  unfold _combine_variables_row, row_getitem. rewrite E1, E2.
  unfold_monad. rewrite (np_isnan_float _ F1), (np_isnan_float _ F2).
  unfold combine_value, in_conflict, missing_or_na in *. fold (resolve on_conflict v1 v2).
  destruct (isna v1 || py_in v1 na_values), (isna v2 || py_in v2 na_values);
    simpl in *; try (by rewrite logged_nil).
  destruct (py_eq v1 v2); simpl in *; [by rewrite logged_nil|].
  rewrite (np_isnan_float _ (Fres eq_refl)).
  destruct (isna (resolve on_conflict v1 v2)); simpl.
  - reflexivity.
  - by rewrite logged_nil.
Qed.

End CombineVariables.

(** C2. On a table whose cells in the two columns are floats,
    [combine_variables] returns, row by row: missing when both values are
    missing or in [na_values]; the other value when exactly one is; the
    common value when both are present and equal; and otherwise what
    [on_conflict] resolves to (the callable applied to both values, or the
    literal). It logs "Valores contradictorios: a=v1 vs. b=v2" under the
    row's case identifier exactly for the rows in conflict whose resolved
    value is missing, in row order, and nothing else. *)
Theorem combine_variables_column format_value varname1 varname2
    on_conflict na_values df self :
  (forall row, row ∈ rows df ->
     is_Some (cells row !! varname1) /\ is_Some (cells row !! varname2) /\
     is_float (cell row varname1) /\ is_float (cell row varname2) /\
     (in_conflict na_values (cell row varname1) (cell row varname2) = true ->
      is_float (resolve on_conflict (cell row varname1) (cell row varname2)))) ->
  exists s : Series,
    combine_variables format_value varname1 varname2 on_conflict na_values df self
    = (Ok s,
       logged self
         (concat (map (fun row =>
            let v1 := cell row varname1 in
            let v2 := cell row varname2 in
            if in_conflict na_values v1 v2 && isna (resolve on_conflict v1 v2)
            then [(case_id_fun self row,
                   "Valores contradictorios: " +:+ varname1 +:+ "=" +:+ format_value v1
                   +:+ " vs. " +:+ varname2 +:+ "=" +:+ format_value v2)]
            else []) (rows df))))
    /\ Forall2 (fun row (p : nat * value) =>
         let v1 := cell row varname1 in
         let v2 := cell row varname2 in
         let m1 := missing_or_na na_values v1 in
         let m2 := missing_or_na na_values v2 in
         p.1 = label row /\
         (m1 = true -> m2 = true -> p.2 = NaN) /\
         (m1 = false -> m2 = true -> p.2 = v1) /\
         (m1 = true -> m2 = false -> p.2 = v2) /\
         (m1 = false -> m2 = false -> py_eq v1 v2 = true -> p.2 = v1) /\
         (m1 = false -> m2 = false -> py_eq v1 v2 = false ->
          p.2 = resolve on_conflict v1 v2))
       (rows df) s.
Proof.
  intros Hrows.
  exists (map (fun row =>
            (label row,
             combine_value on_conflict na_values
               (cell row varname1) (cell row varname2))) (rows df)).
  split.
  - unfold combine_variables, df_apply.
    rewrite (map_M_logged _
               (fun row => (label row,
                  combine_value on_conflict na_values
                    (cell row varname1) (cell row varname2)))
               (combine_warnings format_value varname1 varname2 on_conflict na_values));
      [reflexivity|].
    intros row self0 Hin. destruct (Hrows row Hin) as (S1 & S2 & F1 & F2 & Fr).
    unfold_monad. by rewrite _combine_variables_row_eq.
  - apply Forall2_fmap_r, Forall_Forall2_diag, Forall_forall.
    intros row _. simpl. unfold combine_value.
    repeat split; intros; repeat match goal with H : _ = _ |- _ => rewrite H end;
      reflexivity.
Qed.

Ltac sample_rows H :=
  repeat (apply elem_of_cons in H as [->|H]); [..|by apply elem_of_nil in H].

(** For a run [E : f ... = (r, self')] on concrete data: refute the error
    branch, or read one component of the outcome off [E]. *)
Ltac not_raised E :=
  apply (f_equal (fun r : Result DataFrame * DataLoader => is_ok r.1)) in E;
  vm_compute in E; discriminate E.

Ltac read_off E f :=
  let H := fresh in
  pose proof (f_equal f E) as H; vm_compute in H; symmetry; exact H.

Ltac sample_entries H :=
  repeat (apply elem_of_cons in H as [[= -> ->]|H]); [..|by apply elem_of_nil in H].

Lemma combine_variables_column_witness :
  exists s : Series,
    combine_variables sample_format "A" "B" (Literal NaN) DEFAULT_NA_VALUES
      sample_df sample_loader
    = (Ok s,
       logged sample_loader
         [("c3", "Valores contradictorios: A=5.0 vs. B=7.0")])
    /\ s.*2 = [Num 5; Num 5; NaN; NaN].
Proof.
  destruct (combine_variables_column sample_format "A" "B" (Literal NaN)
              DEFAULT_NA_VALUES sample_df sample_loader) as (s & E & F).
  { intros row H. sample_rows H; vm_compute; repeat split; eauto. }
  exists s. split; [exact E|].
  apply Forall2_cons_inv_l in F as (p0 & s0 & (_ & _ & _ & _ & R0 & _) & F & ->).
  apply Forall2_cons_inv_l in F as (p1 & s1 & (_ & _ & R1 & _) & F & ->).
  apply Forall2_cons_inv_l in F as (p2 & s2 & (_ & R2 & _) & F & ->).
  apply Forall2_cons_inv_l in F as (p3 & s3 & (_ & _ & _ & _ & _ & R3) & F & ->).
  apply Forall2_nil_inv_l in F as ->. simpl.
  rewrite (R0 eq_refl eq_refl eq_refl), (R1 eq_refl eq_refl),
    (R2 eq_refl eq_refl), (R3 eq_refl eq_refl eq_refl).
  reflexivity.
Defined.

(** ** [combine_variables_bool] *)

Lemma map_M_state_fixed {A B} (f : A -> M B) (xs : list A) :
  (forall x self, (f x self).2 = self) ->
  forall self, (map_M f xs self).2 = self.
Proof.
  intros Hf. induction xs as [|x xs IH]; intros self; simpl; [done|].
  unfold_monad. specialize (Hf x self).
  destruct (f x self) as [[y|e] self1]; simpl in *; subst; [|done].
  specialize (IH self).
  by destruct (map_M f xs self) as [[ys|e] self2].
Qed.

Lemma py_or_present v1 v2 : isna v1 = false -> isna v2 = false -> isna (py_or v1 v2) = false.
Proof. unfold py_or. by destruct (py_bool v1). Qed.

Lemma _combine_variables_row_bool_state format_value row varname1 varname2 na_values self :
  (_combine_variables_row format_value row varname1 varname2 (Callable py_or)
     na_values self).2 = self.
Proof.
  unfold _combine_variables_row, row_getitem. unfold_monad.
  destruct (cells row !! varname1) as [v1|]; [|done].
  destruct (cells row !! varname2) as [v2|]; [|done].
  destruct (np_isnan v1) as [n1|] eqn:E1; [|done].
  destruct (np_isnan v2) as [n2|] eqn:E2; [|done]. simpl.
  destruct (n1 || py_in v1 na_values) eqn:M1, (n2 || py_in v2 na_values) eqn:M2;
    simpl; try done.
  destruct (py_eq v1 v2); [done|].
  apply orb_false_elim in M1 as [-> _], M2 as [-> _].
  assert (is_float v1) as F1 by (unfold is_float; by rewrite E1).
  assert (is_float v2) as F2 by (unfold is_float; by rewrite E2).
  rewrite (np_isnan_float _ F1) in E1. rewrite (np_isnan_float _ F2) in E2.
  assert (isna (py_or v1 v2) = false) as Hp by (apply py_or_present; congruence).
  assert (is_float (py_or v1 v2)) as F by (unfold py_or; by destruct (py_bool v1)).
  by rewrite (np_isnan_float _ F), Hp.
Qed.

(** On float columns [combine_variables_bool] returns the five-case
    value with [v1 or v2] for a conflict, and the loader as it was. *)
Lemma combine_variables_bool_eq format_value varname1 varname2 na_values df self :
  (forall row, row ∈ rows df ->
     is_Some (cells row !! varname1) /\ is_Some (cells row !! varname2)
     /\ is_float (cell row varname1) /\ is_float (cell row varname2)) ->
  combine_variables_bool format_value varname1 varname2 na_values df self
  = (Ok (map (fun row =>
            (label row,
             combine_value (Callable py_or) na_values
               (cell row varname1) (cell row varname2))) (rows df)),
     self).
Proof.
  intros Hrows. unfold combine_variables_bool, combine_variables, df_apply.
  rewrite (map_M_logged _
             (fun row => (label row,
                combine_value (Callable py_or) na_values
                  (cell row varname1) (cell row varname2)))
             (fun _ _ => [])).
  - f_equal. rewrite <- (logged_nil self) at 2. f_equal.
    clear. induction (rows df) as [|r l IH]; [done|]. simpl. exact IH.
  - intros row self0 Hin. destruct (Hrows row Hin) as (S1 & S2 & F1 & F2).
    assert (is_float (resolve (Callable py_or) (cell row varname1)
                        (cell row varname2))) as Fr.
    { simpl. unfold py_or. destruct (py_bool _); auto. }
    pose proof (_combine_variables_row_bool_state format_value row varname1
                  varname2 na_values self0) as Hstate.
    rewrite _combine_variables_row_eq in Hstate by auto.
    simpl in Hstate. unfold_monad.
    rewrite _combine_variables_row_eq by auto.
    by rewrite Hstate, logged_nil.
Qed.

(** C10. [combine_variables_bool] never adds to the warning log,
    whatever the table; and on float columns the series it returns holds,
    for every row in conflict (both values present, outside [na_values]
    and different), the first value when that is nonzero and the second
    otherwise, a value that is never missing. *)
Theorem combine_variables_bool_never_warns format_value varname1 varname2 na_values :
  (forall df self,
     (combine_variables_bool format_value varname1 varname2 na_values df self).2
     = self)
  /\ (forall df self,
        (forall row, row ∈ rows df ->
           is_Some (cells row !! varname1) /\ is_Some (cells row !! varname2)
           /\ is_float (cell row varname1) /\ is_float (cell row varname2)) ->
        exists s : Series,
          combine_variables_bool format_value varname1 varname2 na_values df self
          = (Ok s, self)
          /\ Forall2 (fun row (p : nat * value) =>
               let v1 := cell row varname1 in
               let v2 := cell row varname2 in
               p.1 = label row
               /\ (in_conflict na_values v1 v2 = true ->
                   (py_eq v1 (Num 0) = false -> p.2 = v1)
                   /\ (py_eq v1 (Num 0) = true -> p.2 = v2)
                   /\ isna p.2 = false))
             (rows df) s).
Proof.
  split.
  - intros df self. unfold combine_variables_bool, combine_variables, df_apply.
    apply map_M_state_fixed. intros row self0. unfold_monad.
    pose proof (_combine_variables_row_bool_state format_value row varname1
                  varname2 na_values self0) as H.
    by destruct (_combine_variables_row _ _ _ _ _ _ _) as [[v|e] self1].
  - intros df self Hrows. eexists. split; [by apply combine_variables_bool_eq|].
    apply Forall2_fmap_r, Forall_Forall2_diag, Forall_forall.
    intros row Hin. destruct (Hrows row Hin) as (_ & _ & F1 & F2).
    cbn [fst snd]. split; [done|]. intros C.
    set (v1 := cell row varname1) in *. set (v2 := cell row varname2) in *.
    pose proof C as C'. unfold in_conflict, missing_or_na in C'.
    apply andb_prop in C' as [C' _]. apply andb_prop in C' as [N1 N2].
    apply negb_true_iff, orb_false_elim in N1 as [N1 _].
    apply negb_true_iff, orb_false_elim in N2 as [N2 _].
    unfold combine_value. unfold in_conflict in C.
    apply andb_prop in C as [C Q]. apply andb_prop in C as [M1 M2].
    apply negb_true_iff in M1, M2, Q. rewrite M1, M2, Q. simpl.
    split; [|split].
    + intros Z. unfold py_or. destruct v1; try done. simpl in *. by rewrite Z.
    + intros Z. unfold py_or. destruct v1; try done. simpl in *. by rewrite Z.
    + by apply py_or_present.
Qed.

Lemma combine_variables_bool_never_warns_witness :
  exists s : Series,
    combine_variables_bool sample_format "A" "B" DEFAULT_NA_VALUES conflict_df
      sample_loader = (Ok s, sample_loader)
    /\ s = [(0%nat, Num 7); (1%nat, Num 1)].
Proof.
  destruct (combine_variables_bool_never_warns sample_format "A" "B"
              DEFAULT_NA_VALUES) as [_ H].
  destruct (H conflict_df sample_loader) as (s & E & F).
  { intros row Hrow. sample_rows Hrow; vm_compute; repeat split; eauto. }
  exists s. split; [exact E|].
  apply Forall2_cons_inv_l in F as ([i0 x0] & s0 & (L0 & R0) & F & ->).
  apply Forall2_cons_inv_l in F as ([i1 x1] & s1 & (L1 & R1) & F & ->).
  apply Forall2_nil_inv_l in F as ->.
  destruct (R0 eq_refl) as (_ & Z0 & _). destruct (R1 eq_refl) as (N1 & _ & _).
  simpl in L0, L1, Z0, N1. by rewrite L0, L1, (Z0 eq_refl), (N1 eq_refl).
Defined.

(** ** [multibool_to_enum] *)

Section MultiBool.

Variable format_value : value -> string.

Lemma row_fragment_eq row (variables : list string) :
  (forall v, v ∈ variables -> is_Some (cells row !! v)) ->
  mapM (fun v => x ← row_getitem row v; mret (v, x)) variables
  = Ok (map (fun v => (v, cell row v)) variables).
Proof.
  induction variables as [|v vs IH]; intros H; [done|].
  destruct (H v) as [x Ex]; [by left|].
  specialize (IH (fun v' Hv' => H v' (list_elem_of_further _ _ _ Hv'))).
  change (mapM ?f (v :: vs)) with (y ← f v; k ← mapM f vs; mret (y :: k)).
  rewrite IH. unfold row_getitem, cell. rewrite Ex. unfold_monad. simpl.
  by rewrite Ex.
Qed.

Lemma filter_fragment (f : value -> bool) row (variables : list string) :
  filter (fun p : string * value => f p.2 = true)
    (map (fun v => (v, cell row v)) variables)
  = map (fun v => (v, cell row v))
      (filter (fun v => f (cell row v) = true) variables).
Proof.
  induction variables as [|v vs IH]; [done|]. simpl.
  rewrite !filter_cons. simpl. rewrite IH. by destruct (decide _).
Qed.

Lemma _multibool_to_enum_row_eq row variables na_values self :
  (forall v, v ∈ variables -> is_Some (cells row !! v)) ->
  _multibool_to_enum_row format_value row variables na_values self
  = (Ok (multibool_value na_values row variables),
     logged self
       (multibool_warnings format_value variables na_values (case_id_fun self) row)).
Proof.
  intros H. unfold _multibool_to_enum_row.
  rewrite (row_fragment_eq _ _ H). unfold_monad.
  rewrite (filter_fragment isna), (filter_fragment (fun x => pd_isin x na_values)),
    (filter_fragment (fun x => py_eq x (Num 1))).
  rewrite !length_map.
  unfold multibool_value, multibool_warnings, counted_missing.
  destruct (_ =? _)%nat; [by rewrite logged_nil|].
  fold (true_vars row variables).
  destruct (true_vars row variables) as [|name [|name' rest]]; simpl.
  - unfold multibool_message, logged. by rewrite map_map.
  - by rewrite logged_nil.
  - unfold multibool_message, logged. by rewrite map_map.
Qed.

End MultiBool.

Lemma py_in_missing v na_values : isna v = true -> py_in v na_values = false.
Proof.
  destruct v; try done. intros _. unfold py_in.
  induction na_values as [|x xs IH]; [done|]. simpl. exact IH.
Qed.

Lemma pd_isin_py_in v na_values :
  (forall x, x ∈ na_values -> isna x = false) ->
  pd_isin v na_values = py_in v na_values.
Proof.
  unfold pd_isin, py_in. induction na_values as [|x xs IH]; intros H; [done|].
  simpl. rewrite IH by (intros; apply H; by right).
  rewrite (H x) by left. by rewrite andb_false_r, orb_false_r.
Qed.

(** When [na_values] holds no missing value, the two counts never count
    a cell twice, and their sum reaches the number of variables exactly
    when every cell is missing or in [na_values]. *)
Lemma counted_missing_all na_values row (variables : list string) :
  (forall x, x ∈ na_values -> isna x = false) ->
  counted_missing na_values row variables = all_missing na_values row variables.
Proof.
  intros Hna. unfold counted_missing, all_missing.
  assert (length (filter (fun v => isna (cell row v) = true) variables)
          + length (filter (fun v => pd_isin (cell row v) na_values = true) variables)
          <= length variables
          /\ (length (filter (fun v => isna (cell row v) = true) variables)
              + length (filter (fun v => pd_isin (cell row v) na_values = true) variables)
              = length variables
              <-> forallb (fun v => missing_or_na na_values (cell row v)) variables
                  = true)) as [Hle Hiff].
  { induction variables as [|v vs [IHle IHiff]]; [done|].
    rewrite !filter_cons. simpl. unfold missing_or_na at 1.
    rewrite (pd_isin_py_in _ _ Hna).
    destruct (isna (cell row v)) eqn:Ei.
    - rewrite (py_in_missing _ _ Ei).
      destruct (decide (true = true)); [|done].
      destruct (decide (false = true)); [done|]. simpl.
      split; [lia|]. rewrite <- IHiff. lia.
    - destruct (decide (false = true)); [done|].
      destruct (py_in (cell row v) na_values) eqn:Ep; simpl.
      + destruct (decide (true = true)); [|done]. simpl.
        split; [lia|]. rewrite <- IHiff. lia.
      + destruct (decide (false = true)); [done|].
        split; [lia|]. split; [lia|done]. }
  destruct (forallb _ variables).
  - apply Nat.eqb_eq. by apply Hiff.
  - apply Nat.eqb_neq. intros E. by apply Hiff in E.
Qed.

(** X17. When [na_values] holds no missing value and the
    listed variables are columns of the table, [multibool_to_enum]
    returns, row by row: missing, without a warning, when every listed
    variable is missing or in [na_values]; otherwise the name of the
    variable equal to 1.0 when there is exactly one, without a warning;
    otherwise missing, with exactly one warning under the row's case
    identifier that starts "Multi-bool a enum - valores contradictorios:"
    and lists each variable with its value. *)
Theorem multibool_to_enum_column format_value variables na_values df self :
  (forall row, row ∈ rows df ->
     forall v, v ∈ variables -> is_Some (cells row !! v)) ->
  (forall x, x ∈ na_values -> isna x = false) ->
  exists s : Series,
    multibool_to_enum format_value variables na_values df self
    = (Ok s,
       logged self
         (concat (map (fun row =>
            if all_missing na_values row variables then []
            else match true_vars row variables with
                 | [_] => []
                 | _ =>
                   [(case_id_fun self row,
                     "Multi-bool a enum - valores contradictorios: "
                     +:+ String.concat ", "
                           (map (fun v => v +:+ "=" +:+ format_value (cell row v))
                              variables))]
                 end) (rows df))))
    /\ Forall2 (fun row (p : nat * value) =>
         p.1 = label row /\
         (all_missing na_values row variables = true -> p.2 = NaN) /\
         (all_missing na_values row variables = false ->
          forall varname, true_vars row variables = [varname] -> p.2 = Str varname) /\
         (all_missing na_values row variables = false ->
          length (true_vars row variables) ≠ 1%nat -> p.2 = NaN))
       (rows df) s.
Proof.
  intros Hrows Hna.
  exists (map (fun row => (label row, multibool_value na_values row variables))
            (rows df)).
  split.
  - unfold multibool_to_enum, df_apply.
    rewrite (map_M_logged _
               (fun row => (label row, multibool_value na_values row variables))
               (multibool_warnings format_value variables na_values)).
    + do 3 f_equal. apply map_ext. intros row.
      unfold multibool_warnings. by rewrite counted_missing_all.
    + intros row self0 Hin. unfold_monad.
      by rewrite _multibool_to_enum_row_eq by by apply Hrows.
  - apply Forall2_fmap_r, Forall_Forall2_diag, Forall_forall.
    intros row _. simpl. unfold multibool_value.
    rewrite counted_missing_all by done.
    repeat split.
    + by intros ->.
    + by intros -> name ->.
    + intros -> Hlen. by destruct (true_vars row variables) as [|? [|? ?]].
Qed.

Lemma multibool_to_enum_column_witness :
  exists s : Series,
    multibool_to_enum sample_format ["A"; "B"; "C"] DEFAULT_NA_VALUES
      onehot_df sample_loader
    = (Ok s,
       logged sample_loader
         [("c1", "Multi-bool a enum - valores contradictorios: A=1.0, B=1.0, C=0.0")])
    /\ s.*2 = [Str "A"; NaN; NaN].
Proof.
  destruct (multibool_to_enum_column sample_format ["A"; "B"; "C"]
              DEFAULT_NA_VALUES onehot_df sample_loader) as (s & E & F).
  { intros row H v Hv. sample_rows H; sample_rows Hv; vm_compute; eauto. }
  { intros x Hx. by sample_rows Hx. }
  exists s. split; [exact E|].
  apply Forall2_cons_inv_l in F as (p0 & s0 & (_ & _ & R0 & _) & F & ->).
  apply Forall2_cons_inv_l in F as (p1 & s1 & (_ & _ & _ & R1) & F & ->).
  apply Forall2_cons_inv_l in F as (p2 & s2 & (_ & R2 & _) & F & ->).
  apply Forall2_nil_inv_l in F as ->. simpl.
  rewrite (R0 eq_refl "A" eq_refl), (R2 eq_refl), R1; done.
Defined.

(** C4. The test for "all listed variables missing" adds
    [isna().sum()] and [isin(na_values).sum()], so with a missing value
    among [na_values] a missing cell is counted twice: on the row whose
    variables A and B are both missing, [_multibool_to_enum_row] with
    [na_values = [nan]] counts 4 against 2 variables, does not take the
    all-missing branch and logs a contradiction warning, where the claim
    has missing without a warning. [_combine_variables_row], which tests
    [np.isnan(v) or v in na_values], treats the same row as all missing
    and logs nothing. *)
Lemma multibool_to_enum_counts_missing_twice :
  let row := {| label := 0; cells := {[ "ID" := Str "c0"; "A" := NaN; "B" := NaN ]} |} in
  all_missing [NaN] row ["A"; "B"] = true
  /\ _multibool_to_enum_row sample_format row ["A"; "B"] [NaN] sample_loader
     = (Ok NaN,
        logged sample_loader
          [("c0", "Multi-bool a enum - valores contradictorios: A=nan, B=nan")])
  /\ _combine_variables_row sample_format row "A" "B" (Literal NaN) [NaN]
       sample_loader
     = (Ok NaN, sample_loader).
Proof. split; [|split]; reflexivity. Qed.

(** ** [logical_or] and [logical_and] *)

Lemma eq_mask_rows df vname x :
  vname ∈ columns df ->
  eq_mask df vname x = Ok (map (fun row => py_eq (cell row vname) x) (rows df)).
Proof.
  intros H. unfold eq_mask, df_getitem. rewrite bool_decide_true by done.
  unfold_monad. by rewrite map_map.
Qed.

Lemma zip_with_map_rows {A B C D} (op : B -> C -> D) (f : A -> B) (g : A -> C)
    (l : list A) :
  zip_with op (map f l) (map g l) = map (fun a => op (f a) (g a)) l.
Proof. induction l as [|a l IH]; [done|]. simpl. by rewrite IH. Qed.

(** The accumulation over the variables, seen row by row. *)
Lemma logical_masks_rows (opt opf : bool -> bool -> bool) df
    (varnames : list string) (t f : Row -> bool) :
  (forall v, v ∈ varnames -> v ∈ columns df) ->
  fold_result
    (fun (acc : list bool * list bool) vname =>
       t' ← eq_mask df vname (Num 1);
       f' ← eq_mask df vname (Num 0);
       mret (zip_with opt acc.1 t', zip_with opf acc.2 f'))
    (map t (rows df), map f (rows df)) varnames
  = Ok (map (fun row =>
               foldl (fun acc v => opt acc (py_eq (cell row v) (Num 1)))
                 (t row) varnames) (rows df),
        map (fun row =>
               foldl (fun acc v => opf acc (py_eq (cell row v) (Num 0)))
                 (f row) varnames) (rows df)).
Proof.
  revert t f. induction varnames as [|v vs IH]; intros t f H; [done|].
  simpl. rewrite !eq_mask_rows by (apply H; by left).
  unfold_monad. simpl. rewrite !zip_with_map_rows.
  by rewrite IH by (intros; apply H; by right).
Qed.

Lemma mask_assign_rows (g : Row -> nat * value) (m : Row -> bool) x (l : list Row) :
  mask_assign (map g l) (map m l) x
  = map (fun row => if m row then ((g row).1, x) else g row) l.
Proof. unfold mask_assign. by rewrite zip_with_map_rows. Qed.

Lemma _logical_op_rows (opt opf : bool -> bool -> bool) v0 v1 vs df :
  (forall v, v ∈ v0 :: v1 :: vs -> v ∈ columns df) ->
  exists h : Hook,
    _logical_op (zip_with opt) (zip_with opf) (v0 :: v1 :: vs) = Ok h
    /\ forall self,
         h df self
         = (Ok (map (fun row =>
                  (label row,
                   if foldl (fun acc v => opf acc (py_eq (cell row v) (Num 0)))
                        (py_eq (cell row v0) (Num 0)) (v0 :: v1 :: vs)
                   then Num 0
                   else if foldl (fun acc v => opt acc (py_eq (cell row v) (Num 1)))
                             (py_eq (cell row v0) (Num 1)) (v0 :: v1 :: vs)
                        then Num 1
                        else NaN)) (rows df)),
            self).
Proof.
  intros H. unfold _logical_op. rewrite bool_decide_true by (simpl; lia).
  eexists. split; [reflexivity|]. intros self. unfold lift. f_equal.
  change (default "" (head (v0 :: v1 :: vs))) with v0.
  rewrite !eq_mask_rows by (apply H; by left).
  cbn [mbind Result_bind].
  rewrite (logical_masks_rows opt opf df (v0 :: v1 :: vs)
             (fun row => py_eq (cell row v0) (Num 1))
             (fun row => py_eq (cell row v0) (Num 0)) H).
  unfold_monad. cbn [fst snd]. unfold df_index. rewrite map_map.
  rewrite mask_assign_rows.
  rewrite (mask_assign_rows _ _ (Num 0)).
  f_equal. apply map_ext. intros row. cbn [fst].
  by destruct (foldl _ _ _), (foldl _ _ _).
Qed.

Lemma foldl_orb (p : string -> bool) a (l : list string) :
  foldl (fun acc v => acc || p v) a l = a || existsb p l.
Proof.
  revert a. induction l as [|v l IH]; intros a; simpl.
  - by rewrite orb_false_r.
  - by rewrite IH, orb_assoc.
Qed.

Lemma foldl_andb (p : string -> bool) a (l : list string) :
  foldl (fun acc v => acc && p v) a l = a && forallb p l.
Proof.
  revert a. induction l as [|v l IH]; intros a; simpl.
  - by rewrite andb_true_r.
  - by rewrite IH, andb_assoc.
Qed.

Lemma one_is_not_zero v : py_eq v (Num 1) = true -> py_eq v (Num 0) = false.
Proof.
  destruct v as [| |q|]; try done. simpl. intros H1.
  destruct (Qeq_bool q 0) eqn:H0; [|done].
  apply Qeq_bool_iff in H1, H0. rewrite H1 in H0. discriminate.
Qed.

Lemma some_one_not_all_zero row (l : list string) :
  existsb (fun v => py_eq (cell row v) (Num 1)) l = true ->
  forallb (fun v => py_eq (cell row v) (Num 0)) l = false.
Proof.
  induction l as [|v l IH]; [done|]. simpl. intros H.
  apply orb_true_iff in H as [H|H].
  - by rewrite (one_is_not_zero _ H).
  - rewrite (IH H). apply andb_false_r.
Qed.

Lemma all_one_none_zero row (l : list string) :
  l ≠ [] ->
  forallb (fun v => py_eq (cell row v) (Num 1)) l = true ->
  existsb (fun v => py_eq (cell row v) (Num 0)) l = false.
Proof.
  induction l as [|v l IH]; [done|]. simpl. intros _ H.
  apply andb_true_iff in H as [H1 H].
  rewrite (one_is_not_zero _ H1). simpl.
  destruct l as [|v' l']; [done|]. by apply IH.
Qed.

(** C3. Over at least two columns of the table, every row of the
    result of [logical_or] is 1.0 when some listed variable equals 1.0,
    0.0 when all of them equal 0.0, and missing otherwise; every row of
    the result of [logical_and] is 1.0 when all listed variables equal
    1.0, 0.0 when some of them equals 0.0, and missing otherwise. Neither
    touches the warning log. *)
Theorem logical_or_and_rows (varnames : list string) df :
  2 <= length varnames ->
  (forall v, v ∈ varnames -> v ∈ columns df) ->
  (exists h : Hook,
     logical_or varnames = Ok h
     /\ forall self,
          h df self
          = (Ok (map (fun row =>
                   (label row,
                    if existsb (fun v => py_eq (cell row v) (Num 1)) varnames
                    then Num 1
                    else if forallb (fun v => py_eq (cell row v) (Num 0)) varnames
                         then Num 0
                         else NaN)) (rows df)),
             self))
  /\ (exists h : Hook,
        logical_and varnames = Ok h
        /\ forall self,
             h df self
             = (Ok (map (fun row =>
                      (label row,
                       if forallb (fun v => py_eq (cell row v) (Num 1)) varnames
                       then Num 1
                       else if existsb (fun v => py_eq (cell row v) (Num 0)) varnames
                            then Num 0
                            else NaN)) (rows df)),
                self)).
Proof.
  intros Hlen Hcols.
  destruct varnames as [|v0 [|v1 vs]]; [simpl in Hlen; lia..|].
  split.
  - destruct (_logical_op_rows orb andb v0 v1 vs df Hcols) as (h & Eh & Hh).
    exists h. split; [exact Eh|]. intros self. rewrite Hh. do 2 f_equal.
    apply map_ext. intros row. f_equal.
    rewrite (foldl_orb (fun v => py_eq (cell row v) (Num 1))),
      (foldl_andb (fun v => py_eq (cell row v) (Num 0))).
    set (l := v0 :: v1 :: vs).
    assert (py_eq (cell row v0) (Num 1)
            || existsb (fun v => py_eq (cell row v) (Num 1)) l
            = existsb (fun v => py_eq (cell row v) (Num 1)) l) as ->
      by (subst l; simpl; by destruct (py_eq (cell row v0) (Num 1))).
    assert (py_eq (cell row v0) (Num 0)
            && forallb (fun v => py_eq (cell row v) (Num 0)) l
            = forallb (fun v => py_eq (cell row v) (Num 0)) l) as ->
      by (subst l; simpl; by destruct (py_eq (cell row v0) (Num 0))).
    destruct (existsb _ l) eqn:E; [|done].
    by rewrite (some_one_not_all_zero _ _ E).
  - destruct (_logical_op_rows andb orb v0 v1 vs df Hcols) as (h & Eh & Hh).
    exists h. split; [exact Eh|]. intros self. rewrite Hh. do 2 f_equal.
    apply map_ext. intros row. f_equal.
    rewrite (foldl_andb (fun v => py_eq (cell row v) (Num 1))),
      (foldl_orb (fun v => py_eq (cell row v) (Num 0))).
    set (l := v0 :: v1 :: vs).
    assert (py_eq (cell row v0) (Num 1)
            && forallb (fun v => py_eq (cell row v) (Num 1)) l
            = forallb (fun v => py_eq (cell row v) (Num 1)) l) as ->
      by (subst l; simpl; by destruct (py_eq (cell row v0) (Num 1))).
    assert (py_eq (cell row v0) (Num 0)
            || existsb (fun v => py_eq (cell row v) (Num 0)) l
            = existsb (fun v => py_eq (cell row v) (Num 0)) l) as ->
      by (subst l; simpl; by destruct (py_eq (cell row v0) (Num 0))).
    destruct (forallb _ l) eqn:E; [|done].
    by rewrite (all_one_none_zero _ l ltac:(done) E).
Qed.

Lemma logical_or_and_rows_witness :
  exists h : Hook,
    logical_or ["A"; "B"] = Ok h
    /\ h bool_df sample_loader
       = (Ok [(0, Num 1); (1, Num 0); (2, NaN)]%nat, sample_loader).
Proof.
  destruct (logical_or_and_rows ["A"; "B"] bool_df) as [(h & E & Hh) _].
  { simpl. lia. }
  { intros v Hv. sample_rows Hv; simpl; set_solver. }
  exists h. split; [exact E|]. rewrite Hh. reflexivity.
Defined.

(** ** Rows that survive *)

Lemma survive_mono (R R' : Row -> Row -> Prop) l l' :
  (forall r r', R r r' -> R' r r') -> survive R l l' -> survive R' l l'.
Proof. intros HR H. induction H; constructor; auto. Qed.

Lemma survive_Forall2 (R : Row -> Row -> Prop) l l' :
  Forall2 R l l' -> survive R l l'.
Proof. intros H. induction H; constructor; auto. Qed.

Lemma survive_filter (R : Row -> Row -> Prop) (P : Row -> Prop)
    `{forall r, Decision (P r)} l :
  (forall r, R r r) -> survive R l (filter P l).
Proof.
  intros HR. induction l as [|r l IH]; [constructor|].
  rewrite filter_cons. destruct (decide (P r)); constructor; auto.
Qed.

Lemma survive_trans (R1 R2 R3 : Row -> Row -> Prop) l1 l2 l3 :
  (forall a b c, R1 a b -> R2 b c -> R3 a c) ->
  survive R1 l1 l2 -> survive R2 l2 l3 -> survive R3 l1 l3.
Proof.
  intros HR H1. revert l3.
  induction H1 as [|r r' l l' Hr H1 IH|r l l' H1 IH]; intros l3 H2.
  - inversion H2; subst. constructor.
  - inversion H2; subst.
    + constructor; eauto.
    + apply survive_drop. auto.
  - apply survive_drop. auto.
Qed.

Lemma survive_elem (R : Row -> Row -> Prop) l l' r' :
  survive R l l' -> r' ∈ l' -> exists r, r ∈ l /\ R r r'.
Proof.
  intros H. induction H as [|r0 r0' l l' Hr H IH|r0 l l' H IH]; intros Hin.
  - by apply elem_of_nil in Hin.
  - apply elem_of_cons in Hin as [->|Hin].
    + exists r0. split; [by left|done].
    + destruct (IH Hin) as (r & ? & ?). exists r. split; [by right|done].
  - destruct (IH Hin) as (r & ? & ?). exists r. split; [by right|done].
Qed.

(** ** The table operations *)

Lemma cell_set_cell_eq row c v : cell (set_cell row c v) c = v.
Proof. unfold cell, set_cell. simpl. by rewrite lookup_insert_eq. Qed.

Lemma cell_set_cell_ne row c c' v : c ≠ c' -> cell (set_cell row c v) c' = cell row c'.
Proof. intros. unfold cell, set_cell. simpl. by rewrite lookup_insert_ne. Qed.

Lemma same_but_set_cell row c v : same_but [c] row (set_cell row c v).
Proof.
  split; [done|]. intros c' Hc'. apply cell_set_cell_ne.
  intros ->. apply Hc'. by left.
Qed.

Lemma same_but_refl written row : same_but written row row.
Proof. by split. Qed.

Lemma same_but_trans w1 w2 w r1 r2 r3 :
  w1 ⊆ w -> w2 ⊆ w ->
  same_but w1 r1 r2 -> same_but w2 r2 r3 -> same_but w r1 r3.
Proof.
  intros S1 S2 [L1 C1] [L2 C2]. split; [congruence|].
  intros c Hc. rewrite C2, C1; auto.
Qed.

Lemma df_getitem_Ok df varname s :
  df_getitem df varname = Ok s ->
  varname ∈ columns df
  /\ s = map (fun row => (label row, cell row varname)) (rows df).
Proof.
  unfold df_getitem. case_bool_decide; [|done]. intros [= <-]. done.
Qed.

Lemma df_getitem_column df varname :
  varname ∈ columns df ->
  df_getitem df varname
  = Ok (map (fun row => (label row, cell row varname)) (rows df)).
Proof. intros. unfold df_getitem. by rewrite bool_decide_true. Qed.

(** Writing a column adds its name, if new, and no other. *)
Lemma df_setitem_columns df varname s df' :
  df_setitem df varname s = Ok df' ->
  forall c, c ∈ columns df' <-> c ∈ columns df \/ c = varname.
Proof.
  unfold df_setitem. intros H.
  assert (forall c,
            c ∈ (if bool_decide (varname ∈ columns df) then columns df
                 else columns df ++ [varname])
            <-> c ∈ columns df \/ c = varname) as Hcols.
  { intros c. destruct (decide (varname ∈ columns df)) as [Hin|Hin].
    - rewrite (bool_decide_true _ Hin). split; [by left|]. by intros [?| ->].
    - rewrite (bool_decide_false _ Hin).
      by rewrite elem_of_app, list_elem_of_singleton. }
  repeat case_bool_decide; try done; by injection H as <-.
Qed.

(** Writing a column leaves the other cells and the labels alone, when
    the series has the index of the table or the table has rows. *)
Lemma df_setitem_rows df varname s df' :
  df_setitem df varname s = Ok df' ->
  s.*1 = df_index df \/ rows df ≠ [] ->
  Forall2 (same_but [varname]) (rows df) (rows df').
Proof.
  unfold df_setitem. intros H Hcase.
  remember (if bool_decide (varname ∈ columns df) then columns df
            else columns df ++ [varname]) as columns' eqn:Ecols.
  clear Ecols.
  destruct (decide (s.*1 = df_index df)) as [Hidx|Hidx].
  - rewrite (bool_decide_true _ Hidx) in H. injection H as <-. simpl.
    unfold df_index in Hidx.
    assert (length s = length (rows df)) as Hlen.
    { rewrite <- (length_fmap fst s), Hidx. by rewrite length_map. }
    clear Hidx Hcase. revert s Hlen.
    induction (rows df) as [|r l IH]; intros [|p s] Hlen; simplify_eq/=;
      constructor; auto using same_but_set_cell.
  - rewrite (bool_decide_false _ Hidx) in H.
    destruct Hcase as [?|Hrows]; [done|].
    rewrite (bool_decide_false _ Hrows) in H.
    destruct (bool_decide (NoDup s.*1)); [|done]. injection H as <-. simpl.
    apply Forall2_fmap_r, Forall_Forall2_diag, Forall_forall.
    intros row _. apply same_but_set_cell.
Qed.

(** Writing a series that carries the labels of the table writes it cell
    by cell. *)
Lemma df_setitem_aligned df varname (f : Row -> value) :
  exists df',
    df_setitem df varname (map (fun row => (label row, f row)) (rows df)) = Ok df'
    /\ rows df' = map (fun row => set_cell row varname (f row)) (rows df).
Proof.
  unfold df_setitem. rewrite bool_decide_true.
  - eexists. split; [reflexivity|]. simpl.
    induction (rows df) as [|r l IH]; [done|]. simpl. by rewrite IH.
  - unfold df_index. by rewrite <- list_fmap_compose.
Qed.

(** ** Column names *)

Lemma ascii_list_app (a b : string) :
  Stdlib.Strings.String.list_ascii_of_string (a +:+ b)
  = Stdlib.Strings.String.list_ascii_of_string a ++ Stdlib.Strings.String.list_ascii_of_string b.
Proof. induction a as [|x a IH]; [done|]. simpl. by rewrite <- IH. Qed.

Lemma string_app_inj_r (s a b : string) : a +:+ s = b +:+ s -> a = b.
Proof.
  intros H. apply (f_equal Stdlib.Strings.String.list_ascii_of_string) in H.
  rewrite !ascii_list_app in H. apply app_inv_tail in H.
  apply (f_equal Stdlib.Strings.String.string_of_list_ascii) in H.
  by rewrite !Stdlib.Strings.String.string_of_list_ascii_of_string in H.
Qed.

Lemma original_name_fresh (varname : string) : varname +:+ "_ORIGINAL" ≠ varname.
Proof.
  intros H. apply (f_equal Stdlib.Strings.String.list_ascii_of_string) in H.
  rewrite ascii_list_app in H.
  rewrite <- (app_nil_r (Stdlib.Strings.String.list_ascii_of_string varname)) in H at 2.
  by apply app_inv_head in H.
Qed.

(** ** The blocks of the loop body *)

Lemma mapM_Result_Forall2 {A B} (f : A -> Result B) (l : list A) (k : list B) :
  mapM f l = Ok k -> Forall2 (fun x y => f x = Ok y) l k.
Proof.
  revert k. induction l as [|x l IH]; intros k.
  - intros [= <-]. constructor.
  - change (mapM f (x :: l)) with (y ← f x; k ← mapM f l; mret (y :: k)).
    unfold_monad. destruct (f x) as [y|e] eqn:Ex; [|done].
    destruct (mapM f l) as [k'|e]; [|done]. intros [= <-].
    constructor; auto.
Qed.


Lemma zip_with_rows_map {A B} (op : Row -> A -> B) (g : Row -> A) (l : list Row) :
  zip_with op l (map g l) = map (fun row => op row (g row)) l.
Proof. induction l as [|a l IH]; [done|]. simpl. by rewrite IH. Qed.

Lemma store_original_Ok df varname df' :
  store_original df varname = Ok df' ->
  varname ∈ columns df
  /\ rows df'
     = map (fun row => set_cell row (varname +:+ "_ORIGINAL") (cell row varname))
         (rows df)
  /\ (forall c, c ∈ columns df' <-> c ∈ columns df \/ c = varname +:+ "_ORIGINAL").
Proof.
  unfold store_original. unfold_monad.
  destruct (df_getitem df varname) as [s|e] eqn:Es; [|done].
  apply df_getitem_Ok in Es as [Hin ->]. intros H.
  destruct (df_setitem_aligned df (varname +:+ "_ORIGINAL")
              (fun row => cell row varname)) as (df'' & E & Hrows).
  rewrite E in H. injection H as <-.
  pose proof (df_setitem_columns _ _ _ _ E) as Hcols. done.
Qed.


Lemma coerce_category_labels labels s s' :
  coerce_category labels s = Ok s' -> s'.*1 = s.*1.
Proof.
  unfold coerce_category. destruct (negb _); [done|]. unfold_monad.
  destruct (mapM _ _) as [cat_map|e]; [|done].
  destruct (negb _); [done|]. intros [= <-].
  rewrite <- list_fmap_compose. done.
Qed.

Lemma convert_type_Ok vardata df varname df' :
  varname ∈ columns df ->
  convert_type vardata df varname = Ok df' ->
  Forall2 (same_but [varname]) (rows df) (rows df')
  /\ (forall c, c ∈ columns df' <-> c ∈ columns df).
Proof.
  intros Hin. unfold convert_type.
  assert (Forall2 (same_but [varname]) (rows df) (rows df)) as Hrefl.
  { apply Forall_Forall2_diag, Forall_forall. intros. apply same_but_refl. }
  destruct (type vardata); unfold_monad; try (by intros [= <-]).
  - rewrite (df_getitem_column _ _ Hin). intros [= <-].
    simpl. rewrite map_map. rewrite zip_with_rows_map. split; [|done].
    apply Forall2_fmap_r, Forall_Forall2_diag, Forall_forall.
    intros row _. simpl. destruct (negb _).
    + apply same_but_set_cell.
    + apply same_but_refl.
  - destruct (labels vardata) as [lbls|]; [|done].
    destruct (df_getitem df varname) as [s|e] eqn:Es; [|done].
    destruct (coerce_category lbls s) as [s'|e] eqn:Ec; [|done].
    apply df_getitem_Ok in Es as [_ ->].
    apply coerce_category_labels in Ec.
    intros H. pose proof (df_setitem_columns _ _ _ _ H) as H2.
    apply df_setitem_rows in H as H1.
    2: { left. rewrite Ec. unfold df_index. by rewrite <- list_fmap_compose. }
    split; [done|].
    intros c. rewrite H2. split; [|by left]. by intros [?| ->].
Qed.

Lemma concat_map_singleton {A B} (f : A -> B) (l : list A) :
  concat (map (fun x => [f x]) l) = map f l.
Proof. induction l as [|x l IH]; [done|]. simpl. by rewrite IH. Qed.

Lemma filter_none_missing (varname : string) (l : list Row) :
  filter (fun row => isna (cell row varname) = true) l = [] ->
  filter (fun row => isna (cell row varname) = false) l = l.
Proof.
  induction l as [|r l IH]; [done|]. rewrite !filter_cons.
  destruct (isna (cell r varname)); simpl; [done|].
  intros H. by rewrite IH.
Qed.

Lemma no_missing_dropna df varname : no_missing (dropna df varname) varname.
Proof.
  intros row Hin. unfold dropna in Hin. simpl in Hin.
  by apply list_elem_of_filter in Hin as [? _].
Qed.

(** What [_drop_na] does on a column of the table: it never raises, logs
    one "perdida" warning per row with a missing value, in row order, and
    returns the table without these rows. *)
Lemma _drop_na_eq df varname self :
  varname ∈ columns df ->
  _drop_na df varname self
  = (Ok (dropna df varname),
     logged self
       (map (fun row => (case_id_fun self row, varname +:+ " perdida"))
          (filter (fun row => isna (cell row varname) = true) (rows df)))).
Proof.
  intros Hin. unfold _drop_na. rewrite (df_getitem_column _ _ Hin).
  unfold_monad.
  destruct (filter (fun row => isna (cell row varname) = true) (rows df))
    as [|r lost] eqn:El.
  - simpl. rewrite logged_nil. f_equal. f_equal.
    unfold dropna. rewrite (filter_none_missing _ _ El). by destruct df.
  - rewrite bool_decide_true by done.
    rewrite (for_each_logged _
               (fun cid row => [(cid row, varname +:+ " perdida")])) by done.
    by rewrite concat_map_singleton.
Qed.

Lemma _drop_na_appends df varname self :
  exists ws, (_drop_na df varname self).2 = logged self ws.
Proof.
  destruct (decide (varname ∈ columns df)) as [Hin|Hin].
  - rewrite (_drop_na_eq _ _ _ Hin). by eexists.
  - unfold _drop_na, df_getitem. rewrite (bool_decide_false _ Hin).
    exists []. by rewrite logged_nil.
Qed.

Section PipelineFacts.

Variable int_of_str : string -> option Z.

Lemma astype_int64_cell_present v v' :
  astype_int64_cell int_of_str v = Ok v' -> isna v' = false.
Proof.
  destruct v as [| |q|s]; simpl; try done.
  - by intros [= <-].
  - destruct (int_of_str s); [|done]. case_bool_decide; [|done]. by intros [= <-].
Qed.

Lemma astype_int64_Ok s s' :
  astype_int64 int_of_str s = Ok s' ->
  s'.*1 = s.*1 /\ Forall (fun p => isna p.2 = false) s'.
Proof.
  unfold astype_int64. intros H. apply mapM_Result_Forall2 in H.
  induction H as [|p p' s s' Hp H [IH1 IH2]]; [done|].
  unfold_monad. destruct (astype_int64_cell int_of_str p.2) as [v|e] eqn:Ev; [|done].
  injection Hp as <-. split.
  - rewrite !fmap_cons. by rewrite IH1.
  - constructor; [|done]. simpl. by eapply astype_int64_cell_present.
Qed.

Lemma convert_int64_Ok df varname df' :
  convert_int64 int_of_str df varname = Ok df' ->
  Forall2 (same_but [varname]) (rows df) (rows df')
  /\ (forall c, c ∈ columns df' <-> c ∈ columns df)
  /\ no_missing df' varname.
Proof.
  unfold convert_int64. unfold_monad.
  destruct (df_getitem df varname) as [s|e] eqn:Es; [|done].
  apply df_getitem_Ok in Es as [Hin ->].
  destruct (astype_int64 _ _) as [s'|e] eqn:Ec; [|done].
  apply astype_int64_Ok in Ec as [Hlab Hpres]. intros H.
  assert (s'.*1 = df_index df) as Hidx.
  { rewrite Hlab. unfold df_index. by rewrite <- list_fmap_compose. }
  pose proof (df_setitem_columns _ _ _ _ H) as Hcols.
  pose proof (df_setitem_rows _ _ _ _ H (or_introl Hidx)) as Hrows.
  split; [done|]. split.
  { intros c. rewrite Hcols. split; [|by left]. by intros [?| ->]. }
  unfold df_setitem in H. rewrite bool_decide_true in H.
  2: { rewrite Hlab. unfold df_index. by rewrite <- list_fmap_compose. }
  injection H as <-. intros row Hrow. simpl in Hrow.
  apply elem_of_zip_with in Hrow as (r & p & -> & _ & Hp).
  rewrite cell_set_cell_eq. by apply (proj1 (Forall_forall _ _) Hpres).
Qed.

Lemma check_mandatory_Ok vardata df varname self df' self' :
  varname ∈ columns df ->
  check_mandatory int_of_str vardata df varname self = (Ok df', self') ->
  survive (same_but [varname]) (rows df) (rows df')
  /\ (forall c, c ∈ columns df' <-> c ∈ columns df)
  /\ (mandatory vardata = true -> no_missing df' varname).
Proof.
  intros Hin. unfold check_mandatory.
  destruct (mandatory vardata).
  2: { intros [= <- <-]. split; [|done].
       apply survive_Forall2, Forall_Forall2_diag, Forall_forall.
       intros. apply same_but_refl. }
  unfold_monad. rewrite (_drop_na_eq _ _ _ Hin).
  assert (survive (same_but [varname]) (rows df) (rows (dropna df varname))) as Hs.
  { apply survive_filter. intros. apply same_but_refl. }
  destruct (type vardata); try (intros [= <- <-]; split; [done|];
    split; [done|]; intros _; apply no_missing_dropna).
  destruct (convert_int64 _ _ _) as [df2|e] eqn:Ec; [|done].
  intros [= <- <-]. apply convert_int64_Ok in Ec as (Hrows & Hcols & Hnm).
  split; [|done].
  eapply survive_trans; [|exact Hs|apply survive_Forall2, Hrows].
  intros a b c. apply same_but_trans; done.
Qed.

(** One turn of the loop, when it completes. *)
Lemma _preprocess_column_Ok variables df varname self df' self' :
  _preprocess_column int_of_str variables df varname self = (Ok df', self') ->
  exists vardata,
    variables_getitem variables varname = Ok vardata
    /\ varname ∈ columns df
    /\ survive (column_step varname) (rows df) (rows df')
    /\ (forall c, c ∈ columns df' <-> c ∈ columns df \/ c = varname +:+ "_ORIGINAL")
    /\ (mandatory vardata = true -> no_missing df' varname).
Proof.
  unfold _preprocess_column. unfold_monad.
  destruct (variables_getitem variables varname) as [vardata|e]; [|done].
  destruct (store_original df varname) as [df1|e] eqn:E1; [|done].
  destruct (convert_type vardata df1 varname) as [df2|e] eqn:E2; [|done].
  intros E3. exists vardata.
  apply store_original_Ok in E1 as (Hin & Hrows1 & Hcols1).
  assert (varname ∈ columns df1) as Hin1 by (apply Hcols1; by left).
  apply (convert_type_Ok _ _ _ _ Hin1) in E2 as (Hrows2 & Hcols2).
  assert (varname ∈ columns df2) as Hin2 by by apply Hcols2.
  apply (check_mandatory_Ok _ _ _ _ _ _ Hin2) in E3 as (Hrows3 & Hcols3 & Hnm).
  split; [done|]. split; [done|]. split; [|split; [|done]].
  - assert (survive (same_but [varname]) (rows df1) (rows df')) as S2.
    { eapply survive_trans; [|apply survive_Forall2, Hrows2|exact Hrows3].
      intros a b c. by apply same_but_trans. }
    assert (survive
              (fun r r' =>
                 label r' = label r
                 /\ cell r' (varname +:+ "_ORIGINAL") = cell r varname
                 /\ forall c, c ≠ varname +:+ "_ORIGINAL" -> cell r' c = cell r c)
              (rows df) (rows df1)) as S1.
    { apply survive_Forall2. rewrite Hrows1.
      apply Forall2_fmap_r, Forall_Forall2_diag, Forall_forall.
      intros row _. split; [done|]. split; [apply cell_set_cell_eq|].
      intros c Hc. by apply cell_set_cell_ne. }
    eapply survive_trans; [|exact S1|exact S2].
    intros a b c (L1 & O1 & F1) [L2 F2]. split; [congruence|]. split.
    + rewrite F2, O1; [done|]. intros Hc%list_elem_of_singleton.
      by apply original_name_fresh in Hc.
    + intros c0 Hc1 Hc2. rewrite F2, F1; [done..|].
      by intros ->%list_elem_of_singleton.
  - intros c. rewrite Hcols3, Hcols2. apply Hcols1.
Qed.

End PipelineFacts.

(** ** The passes of [_preprocess] *)

Lemma variables_getitem_elem (variables : Registry) varname vardata :
  variables_getitem variables varname = Ok vardata ->
  (varname, vardata) ∈ variables.
Proof.
  unfold variables_getitem.
  destruct (list_to_map variables !! varname) as [var|] eqn:E; [|done].
  intros [= <-]. by apply elem_of_list_to_map_2 in E.
Qed.

Lemma Forall2_rows_nonempty (R : Row -> Row -> Prop) (l l' : list Row) :
  Forall2 R l l' -> l ≠ [] -> l' ≠ [].
Proof. by destruct 1. Qed.

Lemma pass_aligned_tail calculation_key (entry : string * VarSpec)
    (variables : Registry) :
  pass_aligned calculation_key (entry :: variables) ->
  pass_aligned calculation_key variables.
Proof. intros Hal w wvar h Hw. apply (Hal w wvar h). by right. Qed.

(** A pass of [_compute_derived] adds the derived names to the columns;
    on a table that has rows, or with hooks that return series on the
    index of the table, it leaves the rows in place and the other cells
    alone. *)
Lemma _compute_derived_Ok variables calculation_key df self df' self' :
  _compute_derived variables calculation_key df self = (Ok df', self') ->
  (rows df ≠ [] \/ pass_aligned calculation_key variables ->
   Forall2 (same_but (derived_names calculation_key variables)) (rows df) (rows df'))
  /\ (forall c, c ∈ columns df'
                <-> c ∈ columns df \/ c ∈ derived_names calculation_key variables).
Proof.
  revert df self. induction variables as [|[varname var] vs IH]; intros df self.
  - simpl. unfold_monad. intros [= <- <-]. split.
    + intros _. apply Forall_Forall2_diag, Forall_forall. intros. apply same_but_refl.
    + intros c. split; [by left|]. intros [?|H]; [done|]. by apply elem_of_nil in H.
  - simpl. unfold derived_names. simpl.
    destruct (calculation_key var) as [[fun_|]|] eqn:Ek; simpl.
    2,3: intros H; apply IH in H as [Hrows Hcols]; (split; [|done]);
         intros [Hne|Hal]; apply Hrows;
         [by left|right; by eapply pass_aligned_tail].
    unfold_monad. destruct (fun_ df self) as [[s|e] self1] eqn:Eh; [|done].
    destruct (df_setitem df varname s) as [df1|e] eqn:E1; [|done].
    intros H. apply IH in H as [Hrows Hcols].
    pose proof (df_setitem_columns _ _ _ _ E1) as Hcols1. split.
    + intros Hcase.
      assert (Forall2 (same_but [varname]) (rows df) (rows df1)) as Hrows1.
      { apply (df_setitem_rows _ _ _ _ E1). destruct Hcase as [Hne|Hal]; [by right|].
        assert (hook_aligned fun_) as Hfa
          by (apply (Hal varname var); [by left|done]).
        left. by apply (Hfa df self s self1). }
      eapply Forall2_trans; [|exact Hrows1|].
      2: { apply Hrows. destruct Hcase as [Hne|Hal].
           - left. by eapply Forall2_rows_nonempty.
           - right. by eapply pass_aligned_tail. }
      intros a b c. apply same_but_trans.
      * intros x ->%list_elem_of_singleton. by left.
      * intros x Hx. by right.
    + intros c. rewrite Hcols, Hcols1, elem_of_cons. tauto.
Qed.

Section Passes.

Variable int_of_str : string -> option Z.

Lemma _preprocess_loop_cons variables varname varnames df self :
  _preprocess_loop int_of_str variables (varname :: varnames) df self
  = match _preprocess_column int_of_str variables df varname self with
    | (Ok df1, self1) => _preprocess_loop int_of_str variables varnames df1 self1
    | (Raise e, self1) => (Raise e, self1)
    end.
Proof. reflexivity. Qed.

Lemma no_missing_survive (R : Row -> Row -> Prop) varname l df df' :
  rows df = l ->
  survive R l (rows df') ->
  (forall r r', R r r' -> cell r' varname = cell r varname) ->
  no_missing df varname -> no_missing df' varname.
Proof.
  intros <- Hs HR Hnm row' Hin.
  destruct (survive_elem _ _ _ _ Hs Hin) as (row & Hrow & Hr).
  rewrite (HR _ _ Hr). by apply Hnm.
Qed.

(** Once a mandatory variable has been checked, the rest of the loop
    keeps its column free of missing values. *)
Lemma _preprocess_loop_no_missing variables varnames df self df' self' varname vardata :
  _preprocess_loop int_of_str variables varnames df self = (Ok df', self') ->
  variables_getitem variables varname = Ok vardata ->
  mandatory vardata = true ->
  (forall w, w ∈ variables.*1 -> varname ≠ w +:+ "_ORIGINAL") ->
  varname ∈ varnames \/ no_missing df varname ->
  no_missing df' varname.
Proof.
  intros Hloop Hvar Hmand Hfresh. revert df self Hloop.
  induction varnames as [|w ws IH]; intros df self Hloop Hcase.
  - simpl in Hloop. unfold_monad. injection Hloop as <- <-.
    destruct Hcase as [Hin|?]; [|done]. by apply elem_of_nil in Hin.
  - rewrite _preprocess_loop_cons in Hloop.
    destruct (_preprocess_column _ _ _ _ _) as [[df1|e] self1] eqn:E1; [|done].
    apply _preprocess_column_Ok in E1 as (wdata & Hw & Hin & Hs & Hcols & Hnm).
    apply (IH _ _ Hloop).
    destruct (decide (w = varname)) as [->|Hne].
    + right. apply Hnm. congruence.
    + destruct Hcase as [Hin'|Hnm0].
      * left. apply elem_of_cons in Hin' as [?|?]; [congruence|done].
      * right. eapply no_missing_survive; [reflexivity|exact Hs| |exact Hnm0].
        intros r r' (_ & _ & Hframe). apply Hframe; [congruence|].
        apply Hfresh. apply variables_getitem_elem in Hw.
        change w with (w, wdata).1. by apply list_elem_of_fmap_2.
Qed.

End Passes.

(** ** Mandatory variables *)

Lemma Forall2_same_but_labels written l l' :
  Forall2 (same_but written) l l' -> map label l' = map label l.
Proof. induction 1 as [|r r' l l' [Hl _] _ IH]; [done|]. simpl. by rewrite Hl, IH. Qed.

(** X16. Let V be a mandatory variable.
    (a) The check of V never raises on a table that has the column: it
    appends exactly one warning "<V> perdida" per row with a missing
    value in V, keyed by that row's case identifier, in row order, and
    returns the table without these rows, where V has no missing value.
    (b) In the turn of the loop for V these are the rows with a missing
    value after the type conversion of V, and the turn logs nothing else.
    (c) When preprocessing completes, V was a column of the table during
    the loop (read from the file or derived in the first pass), V is not
    computed again by the last pass, the hooks of the last pass return
    series on the index of the table, and V is not the snapshot name
    <W>_ORIGINAL of a declared variable W, then no row of the output
    table has a missing value in V. *)
Theorem mandatory_rows_dropped int_of_str variables varname vardata :
  variables_getitem variables varname = Ok vardata ->
  mandatory vardata = true ->
  (forall df self,
     varname ∈ columns df ->
     _drop_na df varname self
     = (Ok (dropna df varname),
        logged self
          (map (fun row => (case_id_fun self row, varname +:+ " perdida"))
             (filter (fun row => isna (cell row varname) = true) (rows df))))
     /\ rows (dropna df varname)
        = filter (fun row => isna (cell row varname) = false) (rows df)
     /\ no_missing (dropna df varname) varname)
  /\ (forall df self df' self',
        _preprocess_column int_of_str variables df varname self = (Ok df', self') ->
        exists converted,
          (df1 ← store_original df varname; convert_type vardata df1 varname)
          = Ok converted
          /\ self'
             = logged self
                 (map (fun row => (case_id_fun self row, varname +:+ " perdida"))
                    (filter (fun row => isna (cell row varname) = true)
                       (rows converted)))
          /\ map label (rows df')
             = map label
                 (filter (fun row => isna (cell row varname) = false)
                    (rows converted)))
  /\ (forall df self df' self',
        _preprocess int_of_str variables df self = (Ok df', self') ->
        varname ∈ columns df \/ varname ∈ derived_names computation_pre variables ->
        varname ∉ derived_names computation_post variables ->
        pass_aligned computation_post variables ->
        (forall w, w ∈ variables.*1 -> varname ≠ w +:+ "_ORIGINAL") ->
        no_missing df' varname).
Proof.
  intros Hvar Hmand. split; [|split].
  - intros df self Hin. split; [by apply _drop_na_eq|].
    split; [done|apply no_missing_dropna].
  - intros df self df' self'. unfold _preprocess_column. unfold_monad.
    rewrite Hvar.
    destruct (store_original df varname) as [df1|e] eqn:E1; [|done].
    destruct (convert_type vardata df1 varname) as [df2|e] eqn:E2; [|done].
    apply store_original_Ok in E1 as (Hin & _ & Hcols1).
    assert (varname ∈ columns df1) as Hin1 by (apply Hcols1; by left).
    apply (convert_type_Ok _ _ _ _ Hin1) in E2 as (_ & Hcols2).
    assert (varname ∈ columns df2) as Hin2 by by apply Hcols2.
    unfold check_mandatory. rewrite Hmand. unfold_monad.
    rewrite (_drop_na_eq _ _ _ Hin2). intros H. exists df2. split; [done|].
    destruct (type vardata);
      try (injection H as <- <-; by split).
    destruct (convert_int64 _ _ _) as [df3|e] eqn:E3; [|done].
    injection H as <- <-. split; [done|].
    apply convert_int64_Ok in E3 as (Hrows & _).
    by apply Forall2_same_but_labels in Hrows.
  - intros df self df' self' Hpre Hin Hpost Hal Hfresh.
    unfold _preprocess in Hpre. unfold_monad.
    destruct (_compute_derived variables computation_pre df self)
      as [[df1|e] self1] eqn:E1; [|done].
    destruct (_preprocess_loop _ _ _ _ _) as [[df2|e] self2] eqn:E2; [|done].
    apply _compute_derived_Ok in E1 as [_ Hcols1].
    apply _compute_derived_Ok in Hpre as [Hrows3 _].
    assert (no_missing df2 varname) as Hnm.
    { eapply _preprocess_loop_no_missing; eauto. left. by apply Hcols1. }
    eapply no_missing_survive;
      [reflexivity|apply survive_Forall2, Hrows3; by right| |exact Hnm].
    intros r r' [_ Hframe]. by apply Hframe.
Qed.

Lemma mandatory_rows_dropped_witness :
  exists df' self',
    _preprocess sample_int_of_str sample_variables people_df sample_loader
    = (Ok df', self')
    /\ no_missing df' "AGE"
    /\ map label (rows df') = [0%nat]
    /\ _warnings self'
       = [("c2", "Valores contradictorios: A=5.0 vs. B=7.0");
          ("c1", "AGE perdida"); ("c2", "SMOKER perdida")].
Proof.
  pose proof (mandatory_rows_dropped sample_int_of_str sample_variables "AGE"
                (plain VarType.Int true) eq_refl eq_refl) as (_ & _ & H).
  assert ("AGE" ∈ columns people_df
          \/ "AGE" ∈ derived_names computation_pre sample_variables) as H1
    by (left; simpl; compute_done).
  assert ("AGE" ∉ derived_names computation_post sample_variables) as H2
    by (intros Hin; vm_compute in Hin; by apply elem_of_nil in Hin).
  assert (forall w, w ∈ sample_variables.*1 -> "AGE" ≠ w +:+ "_ORIGINAL") as H3
    by (intros w Hw; simpl in Hw; sample_rows Hw; by vm_compute).
  assert (pass_aligned computation_post sample_variables) as H4.
  { intros w wvar h Hw Hk. unfold sample_variables in Hw.
    by sample_entries Hw. }
  specialize (fun df' self' E => H people_df sample_loader df' self' E H1 H2 H4 H3).
  clear H1 H2 H3 H4.
  destruct (_preprocess sample_int_of_str sample_variables people_df sample_loader)
    as [[df'|e] self'] eqn:E.
  2: { not_raised E. }
  exists df', self'. split; [reflexivity|]. split; [exact (H df' self' eq_refl)|].
  clear H. split.
  - read_off E (fun r : Result DataFrame * DataLoader =>
                  match r.1 with Ok d => map label (rows d) | Raise _ => [] end).
  - read_off E (fun r : Result DataFrame * DataLoader => _warnings r.2).
Defined.

(** C1. The mandatory check misses a variable that the last pass
    computes. With AB mandatory and derived by a computation-post hook
    from A and B, on the table whose only row has A and B missing,
    preprocessing completes, keeps the row with AB missing and logs no
    "AB perdida" warning, where the docstring of [load_data] has every row
    with a missing value in a mandatory variable dropped (as happens for a
    variable of the first pass). *)
Lemma mandatory_post_derived_unchecked :
  mandatory <$> (list_to_map late_variables : gmap string VarSpec) !! "AB" = Some true
  /\ exists df' self',
       _preprocess sample_int_of_str late_variables late_df sample_loader
       = (Ok df', self')
       /\ map (fun row => (label row, cell row "AB")) (rows df') = [(0%nat, NaN)]
       /\ _warnings self' = [].
Proof.
  split; [reflexivity|]. eexists _, _.
  split; [vm_compute; reflexivity|]. split; vm_compute; reflexivity.
Qed.

(** ** The snapshot columns *)

Section Originals.

Variable int_of_str : string -> option Z.

Lemma _preprocess_loop_columns variables varnames df self df' self' c :
  _preprocess_loop int_of_str variables varnames df self = (Ok df', self') ->
  c ∈ columns df -> c ∈ columns df'.
Proof.
  revert df self. induction varnames as [|w ws IH]; intros df self Hloop Hc.
  - simpl in Hloop. unfold_monad. by injection Hloop as <- <-.
  - rewrite _preprocess_loop_cons in Hloop.
    destruct (_preprocess_column _ _ _ _ _) as [[df1|e] self1] eqn:E1; [|done].
    apply _preprocess_column_Ok in E1 as (_ & _ & _ & _ & Hcols & _).
    apply (IH _ _ Hloop). apply Hcols. by left.
Qed.

(** A column that the loop neither converts nor uses as a snapshot keeps
    its cells on the rows that survive. *)
Lemma _preprocess_loop_frame variables varnames df self df' self' c :
  _preprocess_loop int_of_str variables varnames df self = (Ok df', self') ->
  c ∉ varnames ->
  (forall w, w ∈ varnames -> c ≠ w +:+ "_ORIGINAL") ->
  survive (fun r r' => label r' = label r /\ cell r' c = cell r c)
    (rows df) (rows df').
Proof.
  revert df self. induction varnames as [|w ws IH]; intros df self Hloop Hc Hfresh.
  - simpl in Hloop. unfold_monad. injection Hloop as <- <-.
    by apply survive_Forall2, Forall_Forall2_diag, Forall_forall.
  - rewrite _preprocess_loop_cons in Hloop.
    destruct (_preprocess_column _ _ _ _ _) as [[df1|e] self1] eqn:E1; [|done].
    apply _preprocess_column_Ok in E1 as (_ & _ & _ & Hs & _).
    apply not_elem_of_cons in Hc as [Hcw Hc].
    eapply survive_trans; [|exact Hs|apply (IH _ _ Hloop Hc)].
    + intros r1 r2 r3 (L1 & _ & F1) (L2 & F2). split; [congruence|].
      rewrite F2. apply F1; [done|]. apply Hfresh. by left.
    + intros w' Hw'. apply Hfresh. by right.
Qed.

Lemma _preprocess_loop_original variables varnames df self df' self' varname :
  _preprocess_loop int_of_str variables varnames df self = (Ok df', self') ->
  NoDup varnames ->
  varname ∈ varnames ->
  varname +:+ "_ORIGINAL" ∉ varnames ->
  (forall w, w ∈ varnames -> varname ≠ w +:+ "_ORIGINAL") ->
  varname +:+ "_ORIGINAL" ∈ columns df'
  /\ survive (fun r r' =>
                label r' = label r
                /\ cell r' (varname +:+ "_ORIGINAL") = cell r varname)
       (rows df) (rows df').
Proof.
  revert df self.
  induction varnames as [|w ws IH]; intros df self Hloop Hnd Hin Hout Hfresh.
  - by apply elem_of_nil in Hin.
  - rewrite _preprocess_loop_cons in Hloop.
    destruct (_preprocess_column _ _ _ _ _) as [[df1|e] self1] eqn:E1; [|done].
    apply _preprocess_column_Ok in E1 as (_ & _ & _ & Hs & Hcols & _).
    apply NoDup_cons in Hnd as [Hw Hnd].
    apply not_elem_of_cons in Hout as [Hout1 Hout].
    destruct (decide (w = varname)) as [->|Hne].
    + split.
      { eapply _preprocess_loop_columns; [exact Hloop|]. apply Hcols. by right. }
      eapply survive_trans;
        [|exact Hs|apply (_preprocess_loop_frame _ _ _ _ _ _ _ Hloop Hout)].
      * intros r1 r2 r3 (L1 & O1 & _) (L2 & F2). split; congruence.
      * intros w' Hw' Heq. apply string_app_inj_r in Heq. congruence.
    + apply elem_of_cons in Hin as [?|Hin]; [congruence|].
      destruct (IH _ _ Hloop Hnd Hin Hout) as [Hcol Hs'].
      { intros w' Hw'. apply Hfresh. by right. }
      split; [done|].
      eapply survive_trans; [|exact Hs|exact Hs'].
      intros r1 r2 r3 (L1 & _ & F1) (L2 & O2). split; [congruence|].
      rewrite O2. apply F1; [congruence|]. apply Hfresh. by left.
Qed.

(** C5 (amended). When the loop of [_preprocess] completes on a table
    none of whose column names is the snapshot name <W>_ORIGINAL of
    another of its columns, then for every column V of that table the
    output has a column <V>_ORIGINAL, and on every row that was not
    dropped it holds the value V had on that row when the loop started:
    neither the conversion of V, nor the mandatory check, nor the turns of
    the other columns change it. *)
Theorem original_values_kept variables df self df' self' varname :
  _preprocess_loop int_of_str variables (columns df) df self = (Ok df', self') ->
  NoDup (columns df) ->
  (forall w, w ∈ columns df -> w +:+ "_ORIGINAL" ∉ columns df) ->
  varname ∈ columns df ->
  varname +:+ "_ORIGINAL" ∈ columns df'
  /\ survive (fun r r' =>
                label r' = label r
                /\ cell r' (varname +:+ "_ORIGINAL") = cell r varname)
       (rows df) (rows df').
Proof.
  intros Hloop Hnd Hfresh Hin.
  eapply _preprocess_loop_original; eauto.
  intros w Hw ->. by apply (Hfresh w).
Qed.

End Originals.

Lemma original_values_kept_witness :
  exists df' self',
    _preprocess_loop sample_int_of_str sample_variables (columns people_df)
      people_df sample_loader = (Ok df', self')
    /\ "SEX_ORIGINAL" ∈ columns df'
    /\ survive (fun r r' =>
                  label r' = label r /\ cell r' "SEX_ORIGINAL" = cell r "SEX")
         (rows people_df) (rows df')
    /\ map (fun row => (cell row "SEX", cell row "SEX_ORIGINAL")) (rows df')
       = [(Str "Hombre", Num 1)].
Proof.
  assert (NoDup (columns people_df)) as H1 by (simpl; compute_done).
  assert (forall w, w ∈ columns people_df ->
            w +:+ "_ORIGINAL" ∉ columns people_df) as H2
    by (intros w Hw; simpl in Hw; sample_rows Hw; compute_done).
  assert ("SEX" ∈ columns people_df) as H3 by (simpl; compute_done).
  pose proof (fun df' self' E =>
                original_values_kept sample_int_of_str sample_variables people_df
                  sample_loader df' self' "SEX" E H1 H2 H3) as H.
  clear H1 H2 H3.
  destruct (_preprocess_loop sample_int_of_str sample_variables (columns people_df)
              people_df sample_loader) as [[df'|e] self'] eqn:E.
  2: { not_raised E. }
  exists df', self'. split; [reflexivity|].
  destruct (H df' self' eq_refl) as [Hc Hs]. split; [exact Hc|]. split; [exact Hs|].
  clear H Hc Hs.
  read_off E (fun r : Result DataFrame * DataLoader =>
                match r.1 with
                | Ok d => map (fun row => (cell row "SEX", cell row "SEX_ORIGINAL"))
                            (rows d)
                | Raise _ => []
                end).
Defined.

(** When a declared variable carries the snapshot name of another one,
    the snapshot is overwritten and then converted like any column: here
    A_ORIGINAL ends up missing although A held 5. *)
Lemma original_overwritten_on_name_clash :
  map (fun row => cell row "A") (rows clash_df) = [Num 5]
  /\ exists df' self',
       _preprocess_loop sample_int_of_str clash_variables (columns clash_df)
         clash_df sample_loader = (Ok df', self')
       /\ map (fun row => cell row "A_ORIGINAL") (rows df') = [NaN].
Proof. split; [reflexivity|]. eexists _, _. split; vm_compute; reflexivity. Qed.

(** ** Row dropping and the integer cast *)

(** C6. (a) The mandatory check of V removes the rows with a missing
    value in V from every column of the table, not only from V. (b) The
    loop hands the table so reduced to the turns of the later variables,
    and it has no missing value in V. (c) For a mandatory Int variable the
    cast to the 64-bit integer type is applied to the column as it is after
    the drop, in which no value is missing. *)
Theorem drop_is_global_and_precedes_cast int_of_str variables varname vardata :
  variables_getitem variables varname = Ok vardata ->
  mandatory vardata = true ->
  (forall df self c,
     varname ∈ columns df -> c ∈ columns df ->
     exists df' self',
       _drop_na df varname self = (Ok df', self')
       /\ df_getitem df' c
          = Ok (map (fun row => (label row, cell row c))
                  (filter (fun row => isna (cell row varname) = false) (rows df))))
  /\ (forall df self df1 self1 varnames,
        _preprocess_column int_of_str variables df varname self = (Ok df1, self1) ->
        no_missing df1 varname
        /\ _preprocess_loop int_of_str variables (varname :: varnames) df self
           = _preprocess_loop int_of_str variables varnames df1 self1)
  /\ (type vardata = VarType.Int ->
      forall df self,
        varname ∈ columns df ->
        exists s self',
          _drop_na df varname self = (Ok (dropna df varname), self')
          /\ df_getitem (dropna df varname) varname = Ok s
          /\ Forall (fun p => isna p.2 = false) s
          /\ check_mandatory int_of_str vardata df varname self
             = (s' ← astype_int64 int_of_str s;
                df_setitem (dropna df varname) varname s',
                self')).
Proof.
  intros Hvar Hmand. split; [|split].
  - intros df self c Hin Hc. eexists _, _.
    rewrite (_drop_na_eq _ _ _ Hin). split; [reflexivity|].
    by rewrite df_getitem_column.
  - intros df self df1 self1 varnames Hstep. split.
    + apply _preprocess_column_Ok in Hstep as (vardata' & Hvar' & _ & _ & _ & Hnm).
      apply Hnm. congruence.
    + rewrite _preprocess_loop_cons. by rewrite Hstep.
  - intros Hint df self Hin. eexists _, _.
    rewrite (_drop_na_eq _ _ _ Hin). split; [reflexivity|].
    assert (varname ∈ columns (dropna df varname)) as Hin' by done.
    rewrite (df_getitem_column _ _ Hin'). split; [reflexivity|]. split.
    + apply Forall_forall. intros p Hp.
      apply list_elem_of_fmap in Hp as (row & -> & Hrow). simpl.
      by apply (no_missing_dropna df varname).
    + unfold check_mandatory. rewrite Hmand, Hint. unfold_monad.
      rewrite (_drop_na_eq _ _ _ Hin). unfold convert_int64. unfold_monad.
      by rewrite (df_getitem_column _ _ Hin').
Qed.

Lemma drop_is_global_and_precedes_cast_witness :
  exists df' self',
    _drop_na people_df "AGE" sample_loader = (Ok df', self')
    /\ df_getitem df' "ID" = Ok [(0, Str "c0"); (2, Str "c2")]%nat.
Proof.
  destruct (drop_is_global_and_precedes_cast sample_int_of_str sample_variables
              "AGE" (plain VarType.Int true) eq_refl eq_refl) as (H & _ & _).
  destruct (H people_df sample_loader "ID") as (df' & self' & E & Hcol).
  { simpl. compute_done. }
  { simpl. compute_done. }
  exists df', self'. split; [exact E|]. rewrite Hcol. reflexivity.
Defined.

(** ** [load_data] *)

Lemma no_computation_key_spec var :
  no_computation_key var = true
  <-> computation_pre var = None /\ computation_post var = None.
Proof.
  unfold no_computation_key.
  destruct (computation_pre var), (computation_post var); simpl;
    repeat case_bool_decide; simpl; split; try done;
    try (intros [? ?]; done);
    exfalso; eauto using is_Some_None.
Qed.

Lemma elem_of_csv_varnames variables name :
  name ∈ csv_varnames variables
  <-> exists var,
        (name, var) ∈ variables
        /\ computation_pre var = None /\ computation_post var = None.
Proof.
  unfold csv_varnames. rewrite list_elem_of_fmap. split.
  - intros ([name' var] & -> & Hin). apply list_elem_of_In, filter_In in Hin as [Hin Hk].
    exists var. split; [by apply list_elem_of_In|]. by apply no_computation_key_spec.
  - intros (var & Hin & Hk). exists (name, var). split; [done|].
    apply list_elem_of_In, filter_In. split; [by apply list_elem_of_In|].
    by apply no_computation_key_spec.
Qed.

Section LoadFacts.

Variable int_of_str : string -> option Z.
Variable parse_field : string -> value.

Lemma read_csv_columns files fname usecols na_values df :
  read_csv parse_field files fname usecols na_values = Ok df ->
  forall c, c ∈ columns df <-> c ∈ usecols.
Proof.
  unfold read_csv. destruct (files !! fname) as [file|]; [|done].
  case_bool_decide as Hall; [|done]. intros [= <-] c. simpl.
  rewrite list_elem_of_filter. split; [by intros [? _]|].
  intros Hc. split; [done|]. by apply (proj1 (Forall_forall _ _) Hall).
Qed.


End LoadFacts.


(** ** The warning log only grows *)

Lemma appends_ret {A} (a : A) : appends (mret a).
Proof. intros self. exists []. by rewrite logged_nil. Qed.

Lemma appends_lift {A} (r : Result A) : appends (lift r).
Proof. intros self. exists []. by rewrite logged_nil. Qed.

Lemma appends_bind {A B} (m : M A) (f : A -> M B) :
  appends m -> (forall a, appends (f a)) -> appends (m ≫= f).
Proof.
  intros Hm Hf self. unfold_monad. destruct (Hm self) as [ws1 H1].
  destruct (m self) as [[a|e] self1]; simpl in H1; subst self1.
  - destruct (Hf a (logged self ws1)) as [ws2 H2]. exists (ws1 ++ ws2).
    by rewrite H2, logged_logged.
  - by exists ws1.
Qed.

Lemma appends__drop_na df varname : appends (_drop_na df varname).
Proof. intros self. apply _drop_na_appends. Qed.

Lemma appends__compute_derived variables calculation_key df :
  (forall varname var h,
     (varname, var) ∈ variables -> calculation_key var = Some (Some h) ->
     hook_appends h) ->
  appends (_compute_derived variables calculation_key df).
Proof.
  revert df. induction variables as [|[varname var] vs IH]; intros df Hhooks.
  - apply appends_ret.
  - simpl.
    assert (forall df', appends (_compute_derived vs calculation_key df')) as IH'.
    { intros df'. apply IH. intros w wvar h Hin. apply (Hhooks w wvar h).
      by right. }
    destruct (calculation_key var) as [[fun_|]|] eqn:Ek; try apply IH'.
    apply appends_bind.
    + intros self. apply (Hhooks varname var fun_); [by left|done].
    + intros s. apply appends_bind; [apply appends_lift|]. intros df'. apply IH'.
Qed.

Section LogFacts.

Variable int_of_str : string -> option Z.
Variable parse_field : string -> value.

Lemma appends__preprocess_column variables df varname :
  appends (_preprocess_column int_of_str variables df varname).
Proof.
  unfold _preprocess_column.
  apply appends_bind; [apply appends_lift|]. intros vardata.
  apply appends_bind; [apply appends_lift|]. intros df1.
  apply appends_bind; [apply appends_lift|]. intros df2.
  unfold check_mandatory. destruct (mandatory vardata); [|apply appends_ret].
  apply appends_bind; [apply appends__drop_na|]. intros df3.
  destruct (type vardata); try apply appends_ret. apply appends_lift.
Qed.

Lemma appends__preprocess_loop variables varnames df :
  appends (_preprocess_loop int_of_str variables varnames df).
Proof.
  revert df. induction varnames as [|w ws IH]; intros df.
  - apply appends_ret.
  - simpl. apply appends_bind; [apply appends__preprocess_column|]. apply IH.
Qed.

Lemma appends__preprocess variables df :
  (forall h, hook_of variables h -> hook_appends h) ->
  appends (_preprocess int_of_str variables df).
Proof.
  intros Hhooks. unfold _preprocess.
  apply appends_bind.
  { apply appends__compute_derived. intros w var h Hin Hk.
    apply Hhooks. exists w, var. split; [done|]. by left. }
  intros df1. apply appends_bind; [apply appends__preprocess_loop|]. intros df2.
  apply appends__compute_derived. intros w var h Hin Hk.
  apply Hhooks. exists w, var. split; [done|]. by right.
Qed.

(** What one call of [load_data] does to the log and to the report. *)
Lemma load_data_log variables files fname ctx na_values self :
  (forall h, hook_of variables h -> hook_appends h) ->
  exists ws,
    (load_data int_of_str parse_field variables files fname ctx na_values self).1.2
    = logged self ws
    /\ (load_data int_of_str parse_field variables files fname ctx na_values self).2
       = if is_ok (load_data int_of_str parse_field variables files fname ctx
                     na_values self).1.1
         then ctx ++ [ {| parent_id := "root"; table_id := "warnings";
                          title := "Warnings"; headings := ["Caso"; ""];
                          table_rows := _warnings self ++ ws |} ]
         else ctx.
Proof.
  intros Hhooks. unfold load_data.
  destruct (read_csv _ _ _ _ _) as [df|e].
  2: { exists []. simpl. by rewrite logged_nil. }
  destruct (appends__preprocess variables df Hhooks self) as [ws Hws].
  exists ws. destruct (_preprocess _ _ _ _) as [[df'|e] self']; simpl in *;
    subst self'; done.
Qed.

(** C9. (a) [add_warning] appends exactly one pair at the end of the
    log, the case identifier being the string given or, for a row, what
    [case_id_fun] makes of it. (b) When the hooks of the registry only add
    warnings, a load leaves the entries the log had in place and in order
    and adds its own after them, whether it completes or raises; the table
    it publishes holds the whole log. (c) The log is not cleared between
    loads: a second load on the same loader publishes the entries that
    were there before the first load, then those of the first load, then
    its own. *)
Theorem warning_log_append_only variables :
  (forall case_id text self,
     add_warning case_id text self
     = (Ok tt,
        logged self
          [(match case_id with
            | CaseRow row => case_id_fun self row
            | CaseStr s => s
            end, text)]))
  /\ ((forall h, hook_of variables h -> hook_appends h) ->
      forall files1 fname1 ctx na_values1 self files2 fname2 na_values2,
        let first :=
          load_data int_of_str parse_field variables files1 fname1 ctx
            na_values1 self in
        let second :=
          load_data int_of_str parse_field variables files2 fname2 first.2
            na_values2 first.1.2 in
        exists ws1 ws2,
          first.1.2 = logged self ws1
          /\ (is_ok first.1.1 = true ->
              first.2
              = ctx ++ [ {| parent_id := "root"; table_id := "warnings";
                            title := "Warnings"; headings := ["Caso"; ""];
                            table_rows := _warnings self ++ ws1 |} ])
          /\ second.1.2 = logged self (ws1 ++ ws2)
          /\ (is_ok second.1.1 = true ->
              second.2
              = first.2
                ++ [ {| parent_id := "root"; table_id := "warnings";
                        title := "Warnings"; headings := ["Caso"; ""];
                        table_rows := _warnings self ++ ws1 ++ ws2 |} ])).
Proof.
  split; [by intros [s|row] text self|].
  intros Hhooks files1 fname1 ctx na_values1 self files2 fname2 na_values2 first second.
  destruct (load_data_log variables files1 fname1 ctx na_values1 self Hhooks)
    as (ws1 & Hlog1 & Hctx1).
  destruct (load_data_log variables files2 fname2 first.2 na_values2 first.1.2 Hhooks)
    as (ws2 & Hlog2 & Hctx2).
  fold first in Hlog1, Hctx1. fold second in Hlog2, Hctx2.
  exists ws1, ws2. split; [done|]. split.
  { intros Hok. by rewrite Hctx1, Hok. }
  rewrite Hlog1, logged_logged in Hlog2. split; [done|].
  intros Hok. rewrite Hctx2, Hok, Hlog1. simpl. by rewrite app_assoc.
Qed.

End LogFacts.

(** The combinators of this module only append to the log. *)
Lemma appends_map_M {A B} (f : A -> M B) (xs : list A) :
  (forall x, appends (f x)) -> appends (map_M f xs).
Proof.
  intros Hf. induction xs as [|x xs IH]; [apply appends_ret|].
  simpl. apply appends_bind; [apply Hf|]. intros y.
  apply appends_bind; [apply IH|]. intros ys. apply appends_ret.
Qed.

Lemma appends_add_warning case_id text : appends (add_warning case_id text).
Proof. intros self. by eexists. Qed.

Lemma combine_variables_appends format_value varname1 varname2 on_conflict na_values :
  hook_appends
    (combine_variables format_value varname1 varname2 on_conflict na_values).
Proof.
  intros df. unfold combine_variables, df_apply. apply appends_map_M. intros row.
  apply appends_bind; [|intros; apply appends_ret].
  unfold _combine_variables_row.
  do 4 (apply appends_bind; [apply appends_lift|]; intros ?).
  repeat (match goal with |- appends (if ?b then _ else _) => destruct b end;
          try apply appends_ret).
  apply appends_bind; [apply appends_lift|]. intros b.
  apply appends_bind; [|intros; apply appends_ret].
  destruct b; [apply appends_add_warning|apply appends_ret].
Qed.

Lemma multibool_to_enum_appends format_value variables na_values :
  hook_appends (multibool_to_enum format_value variables na_values).
Proof.
  intros df. unfold multibool_to_enum, df_apply. apply appends_map_M. intros row.
  apply appends_bind; [|intros; apply appends_ret].
  unfold _multibool_to_enum_row.
  apply appends_bind; [apply appends_lift|]. intros fragment.
  destruct (_ =? _)%nat; [apply appends_ret|].
  destruct (filter _ fragment) as [|[v x] [|p rest]];
    try apply appends_ret;
    (apply appends_bind; [apply appends_add_warning|intros; apply appends_ret]).
Qed.

Lemma sample_hooks_append h : hook_of sample_variables h -> hook_appends h.
Proof.
  intros (varname & var & Hin & Hk). unfold sample_variables in Hin.
  sample_entries Hin; simpl in Hk; destruct Hk as [Hk|Hk]; try discriminate.
  injection Hk as <-. apply combine_variables_appends.
Qed.

Lemma warning_log_append_only_witness :
  let first :=
    load_data sample_int_of_str sample_parse_field sample_variables sample_files
      "people.csv" [] [" "] sample_loader in
  let second :=
    load_data sample_int_of_str sample_parse_field sample_variables sample_files
      "people.csv" first.2 [" "] first.1.2 in
  exists ws1 ws2,
    first.1.2 = logged sample_loader ws1
    /\ second.1.2 = logged sample_loader (ws1 ++ ws2)
    /\ table_rows <$> last second.2
       = Some [("c2", "Valores contradictorios: A=5.0 vs. B=7.0");
               ("c1", "AGE perdida"); ("c2", "SMOKER perdida");
               ("c2", "Valores contradictorios: A=5.0 vs. B=7.0");
               ("c1", "AGE perdida"); ("c2", "SMOKER perdida")].
Proof.
  intros first second.
  destruct (warning_log_append_only sample_int_of_str sample_parse_field
              sample_variables) as [_ H].
  destruct (H sample_hooks_append sample_files "people.csv" [] [" "] sample_loader
              sample_files "people.csv" [" "]) as (ws1 & ws2 & H1 & _ & H2 & _).
  exists ws1, ws2. split; [exact H1|]. split; [exact H2|].
  vm_compute. reflexivity.
Defined.

(** ** When preprocessing completes *)




Lemma df_setitem_NoDup df varname s df' :
  df_setitem df varname s = Ok df' -> NoDup (columns df) -> NoDup (columns df').
Proof.
  unfold df_setitem. intros H Hnd.
  assert (NoDup (if bool_decide (varname ∈ columns df) then columns df
                 else columns df ++ [varname])) as Hnd'.
  { destruct (decide (varname ∈ columns df)) as [Hin|Hin].
    - by rewrite (bool_decide_true _ Hin).
    - rewrite (bool_decide_false _ Hin). apply NoDup_app. split; [done|].
      split; [|apply NoDup_singleton].
      intros x Hx ->%list_elem_of_singleton. done. }
  repeat case_bool_decide; try done; by injection H as <-.
Qed.


Section Completion.

Variable int_of_str : string -> option Z.



End Completion.


Section CompletionOfPasses.

Variable int_of_str : string -> option Z.



End CompletionOfPasses.

Section Abort.

Variable int_of_str : string -> option Z.
Variable parse_field : string -> value.



End Abort.




(** * Further properties *)

(** ** The logical combinators: errors and order of the variables *)

Lemma fold_result_app {A S} (body : S -> A -> Result S) acc (l1 l2 : list A) :
  fold_result body acc (l1 ++ l2)
  = acc' ← fold_result body acc l1; fold_result body acc' l2.
Proof.
  revert acc. induction l1 as [|x l1 IH]; intros acc; [done|].
  simpl. unfold_monad. destruct (body acc x) as [acc'|e]; [|done]. apply IH.
Qed.

Lemma eq_mask_missing df vname x :
  vname ∉ columns df -> eq_mask df vname x = Raise (KeyError vname).
Proof.
  intros H. unfold eq_mask, df_getitem. by rewrite (bool_decide_false _ H).
Qed.

Lemma _logical_op_missing_column (opt opf : bool -> bool -> bool)
    (seen : list string) missing (rest : list string) h df self :
  _logical_op (zip_with opt) (zip_with opf) (seen ++ missing :: rest) = Ok h ->
  (forall v, v ∈ seen -> v ∈ columns df) ->
  missing ∉ columns df ->
  h df self = (Raise (KeyError missing), self).
Proof.
  unfold _logical_op. case_bool_decide as Hlen; [|done]. intros [= <-] Hseen Hmiss.
  unfold lift. f_equal.
  destruct seen as [|v0 seen].
  - change (default "" (head ([] ++ missing :: rest))) with missing.
    rewrite (eq_mask_missing df missing (Num 1)) by done. reflexivity.
  - change (default "" (head ((v0 :: seen) ++ missing :: rest))) with v0.
    rewrite !eq_mask_rows by (apply Hseen; by left).
    cbn [mbind Result_bind].
    rewrite fold_result_app.
    rewrite (logical_masks_rows opt opf df (v0 :: seen)
               (fun row => py_eq (cell row v0) (Num 1))
               (fun row => py_eq (cell row v0) (Num 0)) Hseen).
    cbn [mbind Result_bind]. simpl.
    rewrite (eq_mask_missing df missing (Num 1)) by done. reflexivity.
Qed.

(** X1. The logical combinators refuse fewer than two variable names
    with an AssertionError when the hook is built; a hook built for two or
    more names raises, on a table that lacks some of them, the KeyError of
    the first name of the list that the table lacks, and leaves the warning
    log as it was. *)
Theorem logical_op_errors (varnames : list string) :
  (length varnames < 2 ->
   logical_or varnames = Raise AssertionError
   /\ logical_and varnames = Raise AssertionError)
  /\ (forall h seen missing rest df self,
        logical_or varnames = Ok h \/ logical_and varnames = Ok h ->
        varnames = seen ++ missing :: rest ->
        (forall v, v ∈ seen -> v ∈ columns df) ->
        missing ∉ columns df ->
        h df self = (Raise (KeyError missing), self)).
Proof.
  split.
  - intros Hlen. unfold logical_or, logical_and, _logical_op.
    rewrite bool_decide_false by lia. done.
  - intros h seen missing rest df self Hh -> Hseen Hmiss.
    destruct Hh as [Hh|Hh]; eapply _logical_op_missing_column; eauto.
Qed.

Lemma logical_op_errors_witness :
  logical_or ["A"] = Raise AssertionError
  /\ exists h,
       logical_and ["A"; "Z"; "B"] = Ok h
       /\ h bool_df sample_loader = (Raise (KeyError "Z"), sample_loader).
Proof.
  split.
  - apply (logical_op_errors ["A"]). simpl. lia.
  - destruct (logical_and ["A"; "Z"; "B"]) as [h|e] eqn:E; [|discriminate E].
    exists h. split; [reflexivity|].
    apply (proj2 (logical_op_errors ["A"; "Z"; "B"]) h ["A"] "Z" ["B"]).
    + by right.
    + reflexivity.
    + intros v Hv. sample_rows Hv. simpl. compute_done.
    + simpl. compute_done.
Defined.

Lemma existsb_same_elements (p : string -> bool) (l1 l2 : list string) :
  (forall v, v ∈ l1 <-> v ∈ l2) -> existsb p l1 = existsb p l2.
Proof.
  intros H. apply eq_true_iff_eq. rewrite !existsb_exists.
  split; intros (v & Hin & Hp); exists v; (split; [|done]);
    apply list_elem_of_In, H, list_elem_of_In, Hin.
Qed.

Lemma forallb_same_elements (p : string -> bool) (l1 l2 : list string) :
  (forall v, v ∈ l1 <-> v ∈ l2) -> forallb p l1 = forallb p l2.
Proof.
  intros H. apply eq_true_iff_eq. rewrite !forallb_forall.
  split; intros Hp v Hin; apply Hp; apply list_elem_of_In, H, list_elem_of_In, Hin.
Qed.

Lemma foldl_orb_head (p : string -> bool) v0 (l : list string) :
  foldl (fun acc v => acc || p v) (p v0) (v0 :: l) = existsb p (v0 :: l).
Proof. rewrite foldl_orb. simpl. by destruct (p v0). Qed.

Lemma foldl_andb_head (p : string -> bool) v0 (l : list string) :
  foldl (fun acc v => acc && p v) (p v0) (v0 :: l) = forallb p (v0 :: l).
Proof. rewrite foldl_andb. simpl. by destruct (p v0). Qed.

(** X2. The result of a logical combinator does not depend on the order
    of the variable names nor on repetitions among them: two lists of at
    least two names with the same elements, all columns of the table, give
    hooks that return the same series. *)
Theorem logical_op_order_irrelevant (l1 l2 : list string) df :
  2 <= length l1 -> 2 <= length l2 ->
  (forall v, v ∈ l1 <-> v ∈ l2) ->
  (forall v, v ∈ l1 -> v ∈ columns df) ->
  (exists h1 h2,
     logical_or l1 = Ok h1 /\ logical_or l2 = Ok h2
     /\ forall self, h1 df self = h2 df self)
  /\ (exists h1 h2,
        logical_and l1 = Ok h1 /\ logical_and l2 = Ok h2
        /\ forall self, h1 df self = h2 df self).
Proof.
  intros Hlen1 Hlen2 Hsame Hcols1.
  assert (forall v, v ∈ l2 -> v ∈ columns df) as Hcols2
    by (intros v Hv; by apply Hcols1, Hsame).
  destruct l1 as [|a0 [|a1 l1]]; [simpl in Hlen1; lia..|].
  destruct l2 as [|b0 [|b1 l2]]; [simpl in Hlen2; lia..|].
  split.
  - destruct (_logical_op_rows orb andb a0 a1 l1 df Hcols1) as (h1 & E1 & H1).
    destruct (_logical_op_rows orb andb b0 b1 l2 df Hcols2) as (h2 & E2 & H2).
    exists h1, h2. split; [exact E1|]. split; [exact E2|]. intros self.
    rewrite H1, H2. do 2 f_equal. apply map_ext. intros row. f_equal.
    rewrite (foldl_orb_head (fun v => py_eq (cell row v) (Num 1))),
      (foldl_andb_head (fun v => py_eq (cell row v) (Num 0))).
    rewrite (foldl_orb_head (fun v => py_eq (cell row v) (Num 1))),
      (foldl_andb_head (fun v => py_eq (cell row v) (Num 0))).
    by rewrite (existsb_same_elements _ _ _ Hsame),
      (forallb_same_elements _ _ _ Hsame).
  - destruct (_logical_op_rows andb orb a0 a1 l1 df Hcols1) as (h1 & E1 & H1).
    destruct (_logical_op_rows andb orb b0 b1 l2 df Hcols2) as (h2 & E2 & H2).
    exists h1, h2. split; [exact E1|]. split; [exact E2|]. intros self.
    rewrite H1, H2. do 2 f_equal. apply map_ext. intros row. f_equal.
    rewrite (foldl_andb_head (fun v => py_eq (cell row v) (Num 1))),
      (foldl_orb_head (fun v => py_eq (cell row v) (Num 0))).
    rewrite (foldl_andb_head (fun v => py_eq (cell row v) (Num 1))),
      (foldl_orb_head (fun v => py_eq (cell row v) (Num 0))).
    by rewrite (existsb_same_elements _ _ _ Hsame),
      (forallb_same_elements _ _ _ Hsame).
Qed.

Lemma logical_op_order_irrelevant_witness :
  exists h1 h2,
    logical_or ["A"; "B"] = Ok h1 /\ logical_or ["B"; "A"; "B"] = Ok h2
    /\ forall self, h1 bool_df self = h2 bool_df self.
Proof.
  apply (logical_op_order_irrelevant ["A"; "B"] ["B"; "A"; "B"] bool_df).
  - simpl. lia.
  - simpl. lia.
  - intros v. rewrite !elem_of_cons. rewrite !elem_of_nil. tauto.
  - intros v Hv. sample_rows Hv; simpl; compute_done.
Defined.

(** ** More on [combine_variables] *)

Lemma py_eq_refl_float v : is_float v -> isna v = false -> py_eq v v = true.
Proof.
  destruct v as [| b|q|s]; try done; intros _ _; simpl.
  - by destruct b.
  - by apply Qeq_bool_iff.
Qed.

(** X3. Combining a variable with itself never finds a conflict: over a
    float column, [combine_variables(a, a, ...)] returns the column with
    the values of [na_values] turned into missing ones, whatever
    [on_conflict] is, and logs nothing. *)
Theorem combine_variables_with_itself format_value varname on_conflict na_values
    df self :
  (forall row, row ∈ rows df ->
     is_Some (cells row !! varname) /\ is_float (cell row varname)) ->
  combine_variables format_value varname varname on_conflict na_values df self
  = (Ok (map (fun row =>
            (label row,
             if missing_or_na na_values (cell row varname) then NaN
             else cell row varname)) (rows df)),
     self).
Proof.
  intros Hrows. unfold combine_variables, df_apply.
  rewrite (map_M_logged _
             (fun row =>
                (label row,
                 if missing_or_na na_values (cell row varname) then NaN
                 else cell row varname))
             (fun _ _ => [])).
  - f_equal. rewrite <- (logged_nil self) at 2. f_equal.
    clear Hrows. induction (rows df) as [|r l IH]; [done|]. simpl. exact IH.
  - intros row self0 Hin. destruct (Hrows row Hin) as [Hsome Hfloat].
    assert (in_conflict na_values (cell row varname) (cell row varname) = false)
      as Hnc.
    { unfold in_conflict.
      destruct (missing_or_na na_values (cell row varname)) eqn:Em; [done|].
      simpl. apply orb_false_elim in Em as [Ei _].
      by rewrite (py_eq_refl_float _ Hfloat Ei). }
    unfold_monad. rewrite _combine_variables_row_eq; try done.
    2: { by rewrite Hnc. }
    unfold combine_warnings, combine_value. rewrite Hnc. simpl.
    destruct (missing_or_na na_values (cell row varname)) eqn:Em; simpl; [done|].
    apply orb_false_elim in Em as [Ei _].
    by rewrite (py_eq_refl_float _ Hfloat Ei).
Qed.

Lemma combine_variables_with_itself_witness :
  combine_variables sample_format "B" "B" (Literal NaN) DEFAULT_NA_VALUES
    sample_df sample_loader
  = (Ok [(0, Num 5); (1, NaN); (2, NaN); (3, Num 7)]%nat, sample_loader).
Proof.
  rewrite combine_variables_with_itself; [reflexivity|].
  intros row H. sample_rows H; vm_compute; eauto.
Defined.

(** X4. The values of [na_values] never pass through [combine_variables]:
    on float columns, the value returned for a row that is not in conflict
    is either missing or a value that is neither missing nor in
    [na_values]. Only the resolution of a conflict can put such a value in
    the result. *)
Theorem combine_variables_filters_na_values format_value varname1 varname2
    on_conflict na_values df self :
  (forall row, row ∈ rows df ->
     is_Some (cells row !! varname1) /\ is_Some (cells row !! varname2) /\
     is_float (cell row varname1) /\ is_float (cell row varname2) /\
     (in_conflict na_values (cell row varname1) (cell row varname2) = true ->
      is_float (resolve on_conflict (cell row varname1) (cell row varname2)))) ->
  exists s self',
    combine_variables format_value varname1 varname2 on_conflict na_values df self
    = (Ok s, self')
    /\ Forall2 (fun row (p : nat * value) =>
         in_conflict na_values (cell row varname1) (cell row varname2) = false ->
         p.2 = NaN \/ missing_or_na na_values p.2 = false)
       (rows df) s.
Proof.
  intros Hrows. unfold combine_variables, df_apply.
  rewrite (map_M_logged _
             (fun row => (label row,
                combine_value on_conflict na_values
                  (cell row varname1) (cell row varname2)))
             (combine_warnings format_value varname1 varname2 on_conflict na_values)).
  - eexists _, _. split; [reflexivity|].
    apply Forall2_fmap_r, Forall_Forall2_diag, Forall_forall.
    intros row _ Hnc. simpl. unfold combine_value, in_conflict in *.
    destruct (missing_or_na na_values (cell row varname1)) eqn:E1,
      (missing_or_na na_values (cell row varname2)) eqn:E2; simpl in *; auto.
    apply negb_false_iff in Hnc. rewrite Hnc. auto.
  - intros row self0 Hin. destruct (Hrows row Hin) as (S1 & S2 & F1 & F2 & Fr).
    unfold_monad. by rewrite _combine_variables_row_eq.
Qed.

Lemma combine_variables_filters_na_values_witness :
  exists s self',
    combine_variables sample_format "A" "B" (Literal NaN) DEFAULT_NA_VALUES
      sample_df sample_loader = (Ok s, self')
    /\ Forall2 (fun row (p : nat * value) =>
         in_conflict DEFAULT_NA_VALUES (cell row "A") (cell row "B") = false ->
         p.2 = NaN \/ missing_or_na DEFAULT_NA_VALUES p.2 = false)
       (rows sample_df) s.
Proof.
  apply combine_variables_filters_na_values.
  intros row H. sample_rows H; vm_compute; repeat split; eauto.
Defined.

Lemma py_eq_num v a : py_eq v (Num a) = true -> exists q, v = Num q /\ (q == a)%Q.
Proof.
  destruct v as [| |q|]; try done. simpl. intros H.
  exists q. split; [done|]. by apply Qeq_bool_iff.
Qed.

Lemma Qeq_bool_compat q1 q2 a b :
  (q1 == a)%Q -> (q2 == b)%Q -> Qeq_bool q1 q2 = Qeq_bool a b.
Proof.
  intros H1 H2. apply eq_true_iff_eq. rewrite !Qeq_bool_iff.
  by rewrite H1, H2.
Qed.

Lemma py_in_num q a na_values :
  (q == a)%Q -> py_in (Num q) na_values = py_in (Num a) na_values.
Proof.
  intros H. unfold py_in. induction na_values as [|x xs IH]; [done|].
  simpl. rewrite IH. f_equal. destruct x as [| |b|]; try done. simpl.
  apply Qeq_bool_compat; [done|reflexivity].
Qed.

Lemma boolean_coded_cases na_values v :
  py_in (Num 0) na_values = false ->
  py_in (Num 1) na_values = false ->
  boolean_coded v ->
  v = NaN
  \/ (exists q, v = Num q /\ (q == 0)%Q /\ missing_or_na na_values v = false)
  \/ (exists q, v = Num q /\ (q == 1)%Q /\ missing_or_na na_values v = false).
Proof.
  intros Hna0 Hna1 [Hv|[Hv|Hv]].
  - left. by destruct v.
  - right. left. apply py_eq_num in Hv as (q & -> & Hq). exists q.
    split; [done|]. split; [done|]. unfold missing_or_na. simpl.
    by rewrite (py_in_num q 0 na_values Hq).
  - right. right. apply py_eq_num in Hv as (q & -> & Hq). exists q.
    split; [done|]. split; [done|]. unfold missing_or_na. simpl.
    by rewrite (py_in_num q 1 na_values Hq).
Qed.

Lemma Qeq_bool_zero q : (q == 0)%Q -> Qeq_bool q 0 = true /\ Qeq_bool q 1 = false.
Proof.
  intros H. split.
  - by apply Qeq_bool_iff.
  - rewrite (Qeq_bool_compat q 1 0 1 H (Qeq_refl 1)). reflexivity.
Qed.

Lemma Qeq_bool_one q : (q == 1)%Q -> Qeq_bool q 0 = false /\ Qeq_bool q 1 = true.
Proof.
  intros H. split.
  - rewrite (Qeq_bool_compat q 0 1 0 H (Qeq_refl 0)). reflexivity.
  - by apply Qeq_bool_iff.
Qed.

(** The value [combine_variables_bool] returns for two boolean-coded
    cells. *)
Lemma combine_value_boolean_coded na_values v1 v2 :
  py_in (Num 0) na_values = false ->
  py_in (Num 1) na_values = false ->
  boolean_coded v1 -> boolean_coded v2 ->
  (isna v1 = true -> isna v2 = true ->
   combine_value (Callable py_or) na_values v1 v2 = NaN)
  /\ (py_eq v1 (Num 1) = true \/ py_eq v2 (Num 1) = true ->
      py_eq (combine_value (Callable py_or) na_values v1 v2) (Num 1) = true)
  /\ (py_eq v1 (Num 1) = false -> py_eq v2 (Num 1) = false ->
      py_eq v1 (Num 0) = true \/ py_eq v2 (Num 0) = true ->
      py_eq (combine_value (Callable py_or) na_values v1 v2) (Num 0) = true).
Proof.
  intros Hna0 Hna1 B1 B2. unfold combine_value.
  destruct (boolean_coded_cases na_values v1 Hna0 Hna1 B1)
    as [->|[(q1 & -> & Hq1 & ->)|(q1 & -> & Hq1 & ->)]];
    destruct (boolean_coded_cases na_values v2 Hna0 Hna1 B2)
      as [->|[(q2 & -> & Hq2 & ->)|(q2 & -> & Hq2 & ->)]];
    simpl; unfold py_or; simpl;
    try rewrite (Qeq_bool_compat q1 q2 _ _ Hq1 Hq2);
    try (destruct (Qeq_bool_zero q1 Hq1) as [-> ->]);
    try (destruct (Qeq_bool_one q1 Hq1) as [-> ->]);
    try (destruct (Qeq_bool_zero q2 Hq2) as [-> ->]);
    try (destruct (Qeq_bool_one q2 Hq2) as [-> ->]);
    simpl;
    try (destruct (Qeq_bool_zero q1 Hq1) as [-> ->]);
    try (destruct (Qeq_bool_one q1 Hq1) as [-> ->]);
    try (destruct (Qeq_bool_zero q2 Hq2) as [-> ->]);
    try (destruct (Qeq_bool_one q2 Hq2) as [-> ->]);
    (split; [|split]); try done;
    try (intros [?|?]; done); try (intros _ _ [?|?]; done).
Qed.

(** X5. On boolean-coded columns (0.0, 1.0 or missing, neither of the
    two codes being listed in [na_values]) [combine_variables_bool] gives,
    row by row, missing when both values are missing, 1.0 when one of them
    is 1.0, and 0.0 when none is 1.0 and one is 0.0; so a 0.0 beside a
    missing value gives 0.0. It logs nothing. *)
Theorem combine_variables_bool_on_boolean_columns format_value varname1 varname2
    na_values df self :
  py_in (Num 0) na_values = false ->
  py_in (Num 1) na_values = false ->
  (forall row, row ∈ rows df ->
     is_Some (cells row !! varname1) /\ is_Some (cells row !! varname2) /\
     boolean_coded (cell row varname1) /\ boolean_coded (cell row varname2)) ->
  exists s : Series,
    combine_variables_bool format_value varname1 varname2 na_values df self
    = (Ok s, self)
    /\ Forall2 (fun row (p : nat * value) =>
         let v1 := cell row varname1 in
         let v2 := cell row varname2 in
         p.1 = label row /\
         (isna v1 = true -> isna v2 = true -> p.2 = NaN) /\
         (py_eq v1 (Num 1) = true \/ py_eq v2 (Num 1) = true ->
          py_eq p.2 (Num 1) = true) /\
         (py_eq v1 (Num 1) = false -> py_eq v2 (Num 1) = false ->
          py_eq v1 (Num 0) = true \/ py_eq v2 (Num 0) = true ->
          py_eq p.2 (Num 0) = true))
       (rows df) s.
Proof.
  intros Hna0 Hna1 Hrows.
  assert (forall v, boolean_coded v -> is_float v) as Hfloat.
  { intros v B.
    destruct (boolean_coded_cases na_values v Hna0 Hna1 B)
      as [->|[(q & -> & _)|(q & -> & _)]]; done. }
  exists (map (fun row =>
            (label row,
             combine_value (Callable py_or) na_values
               (cell row varname1) (cell row varname2))) (rows df)).
  split.
  - unfold combine_variables_bool, combine_variables, df_apply.
    rewrite (map_M_logged _
               (fun row => (label row,
                  combine_value (Callable py_or) na_values
                    (cell row varname1) (cell row varname2)))
               (fun _ _ => [])).
    + f_equal. rewrite <- (logged_nil self) at 2. f_equal.
      clear. induction (rows df) as [|r l IH]; [done|]. simpl. exact IH.
    + intros row self0 Hin. destruct (Hrows row Hin) as (S1 & S2 & B1 & B2).
      assert (is_float (resolve (Callable py_or) (cell row varname1)
                          (cell row varname2))) as Fr.
      { simpl. unfold py_or. destruct (py_bool _); auto. }
      pose proof (_combine_variables_row_bool_state format_value row varname1
                    varname2 na_values self0) as Hstate.
      rewrite _combine_variables_row_eq in Hstate by auto.
      simpl in Hstate. unfold_monad.
      rewrite _combine_variables_row_eq by auto.
      by rewrite Hstate, logged_nil.
  - apply Forall2_fmap_r, Forall_Forall2_diag, Forall_forall.
    intros row Hin. destruct (Hrows row Hin) as (_ & _ & B1 & B2). simpl.
    split; [done|]. by apply combine_value_boolean_coded.
Qed.

Lemma combine_variables_bool_on_boolean_columns_witness :
  exists s : Series,
    combine_variables_bool sample_format "A" "B" DEFAULT_NA_VALUES bool_df
      sample_loader = (Ok s, sample_loader)
    /\ s.*2 = [Num 1; Num 0; Num 0].
Proof.
  destruct (combine_variables_bool_on_boolean_columns sample_format "A" "B"
              DEFAULT_NA_VALUES bool_df sample_loader) as (s & E & _).
  - reflexivity.
  - reflexivity.
  - intros row H. unfold boolean_coded.
    sample_rows H; vm_compute; repeat split; eauto.
  - exists s. split; [exact E|].
    apply (f_equal (fun r : Result Series * DataLoader =>
                      match r.1 with Ok s => s.*2 | Raise _ => [] end)) in E.
    vm_compute in E. symmetry. exact E.
Defined.

(** ** More on [multibool_to_enum] *)

(** X6. Whatever [na_values] is, on a row that has the listed variables
    [_multibool_to_enum_row] returns either missing or the name of a listed
    variable whose value is 1.0, no other listed variable being 1.0; it
    logs at most one warning, and none when it returns a name. *)
Theorem multibool_result_is_sound format_value row variables na_values self :
  (forall v, v ∈ variables -> is_Some (cells row !! v)) ->
  exists res ws,
    _multibool_to_enum_row format_value row variables na_values self
    = (Ok res, logged self ws)
    /\ length ws <= 1
    /\ (res = NaN
        \/ exists varname,
             res = Str varname /\ ws = []
             /\ varname ∈ variables
             /\ py_eq (cell row varname) (Num 1) = true
             /\ forall w, w ∈ variables -> py_eq (cell row w) (Num 1) = true ->
                  w = varname).
Proof.
  intros Hcells. rewrite _multibool_to_enum_row_eq by done.
  eexists _, _. split; [reflexivity|].
  unfold multibool_value, multibool_warnings.
  destruct (counted_missing na_values row variables); [split; [simpl; lia|by left]|].
  destruct (true_vars row variables) as [|name [|name' rest]] eqn:Et; simpl.
  - split; [lia|by left].
  - split; [lia|]. right. exists name. split; [done|]. split; [done|].
    assert (name ∈ true_vars row variables) as Hin by (rewrite Et; by left).
    apply list_elem_of_filter in Hin as [Hone Hin]. split; [done|]. split; [done|].
    intros w Hw Hwone.
    assert (w ∈ true_vars row variables) as Hw'
      by (apply list_elem_of_filter; by split).
    rewrite Et in Hw'. by apply list_elem_of_singleton in Hw'.
  - split; [lia|by left].
Qed.

Lemma multibool_result_is_sound_witness :
  exists res ws,
    _multibool_to_enum_row sample_format
      (onehot_row 0 "c0" (Num 0) (Num 1) (Num 0)) ["A"; "B"; "C"]
      DEFAULT_NA_VALUES sample_loader
    = (Ok res, logged sample_loader ws)
    /\ length ws <= 1
    /\ (res = NaN
        \/ exists varname,
             res = Str varname /\ ws = []
             /\ varname ∈ ["A"; "B"; "C"]
             /\ py_eq (cell (onehot_row 0 "c0" (Num 0) (Num 1) (Num 0)) varname)
                  (Num 1) = true
             /\ forall w, w ∈ ["A"; "B"; "C"] ->
                  py_eq (cell (onehot_row 0 "c0" (Num 0) (Num 1) (Num 0)) w)
                    (Num 1) = true ->
                  w = varname).
Proof.
  apply multibool_result_is_sound.
  intros v Hv. sample_rows Hv; vm_compute; eauto.
Defined.

(** ** More on the mandatory check *)

Lemma length_filter_missing (varname : string) (l : list Row) :
  length (filter (fun row => isna (cell row varname) = true) l)
  + length (filter (fun row => isna (cell row varname) = false) l)
  = length l.
Proof.
  induction l as [|r l IH]; [done|]. rewrite !filter_cons.
  destruct (isna (cell r varname)); simpl; lia.
Qed.

Lemma dropna_comm df v w : dropna (dropna df v) w = dropna (dropna df w) v.
Proof.
  unfold dropna. simpl. f_equal.
  induction (rows df) as [|r l IH]; [done|]. rewrite !filter_cons.
  destruct (isna (cell r v)) eqn:Ev, (isna (cell r w)) eqn:Ew; simpl;
    rewrite ?filter_cons, ?Ev, ?Ew; simpl; by rewrite IH.
Qed.

Lemma dropna_again df v : dropna (dropna df v) v = dropna df v.
Proof.
  unfold dropna. simpl. f_equal.
  induction (rows df) as [|r l IH]; [done|]. rewrite !filter_cons.
  destruct (isna (cell r v)) eqn:Ev; simpl; [done|].
  rewrite filter_cons, Ev. simpl. by rewrite IH.
Qed.

Lemma _drop_na_then df v w self :
  v ∈ columns df -> w ∈ columns df ->
  exists self',
    (d ← _drop_na df v; _drop_na d w) self = (Ok (dropna (dropna df v) w), self')
    /\ length (_warnings self') + length (rows (dropna (dropna df v) w))
       = length (_warnings self) + length (rows df).
Proof.
  intros Hv Hw. unfold_monad. rewrite (_drop_na_eq _ _ _ Hv).
  assert (w ∈ columns (dropna df v)) as Hw' by done.
  rewrite (_drop_na_eq _ _ _ Hw'). eexists. split; [reflexivity|].
  simpl. rewrite !length_app, !length_map.
  pose proof (length_filter_missing v (rows df)).
  pose proof (length_filter_missing w
                (filter (fun row => isna (cell row v) = false) (rows df))).
  lia.
Qed.

(** X7. The mandatory check is idempotent and its effect on the table
    does not depend on the order of the variables: checking a variable
    again drops nothing and logs nothing; checking two columns in either
    order leaves the same table; and in either order the number of warnings
    logged is the number of rows dropped, so a row that misses both
    variables is reported once, for the variable checked first. *)
Theorem drop_na_idempotent_and_commutes df v w self :
  v ∈ columns df -> w ∈ columns df ->
  _drop_na (dropna df v) v self = (Ok (dropna df v), self)
  /\ exists self1 self2,
       (d ← _drop_na df v; _drop_na d w) self
       = (Ok (dropna (dropna df v) w), self1)
       /\ (d ← _drop_na df w; _drop_na d v) self
          = (Ok (dropna (dropna df v) w), self2)
       /\ length (_warnings self1) = length (_warnings self2)
       /\ length (_warnings self1) + length (rows (dropna (dropna df v) w))
          = length (_warnings self) + length (rows df).
Proof.
  intros Hv Hw. split.
  - assert (v ∈ columns (dropna df v)) as Hv' by done.
    rewrite (_drop_na_eq _ _ _ Hv'). rewrite dropna_again. f_equal.
    assert (filter (fun row => isna (cell row v) = true) (rows (dropna df v)) = [])
      as ->.
    { simpl. induction (rows df) as [|r l IH]; [done|]. rewrite filter_cons.
      destruct (isna (cell r v)) eqn:Ev; simpl; [done|].
      rewrite filter_cons, Ev. simpl. exact IH. }
    apply logged_nil.
  - destruct (_drop_na_then df v w self Hv Hw) as (self1 & E1 & L1).
    destruct (_drop_na_then df w v self Hw Hv) as (self2 & E2 & L2).
    rewrite (dropna_comm df w v) in E2, L2.
    exists self1, self2. split; [done|]. split; [done|]. split; [lia|done].
Qed.

Lemma drop_na_idempotent_and_commutes_witness :
  _drop_na (dropna people_df "AGE") "AGE" sample_loader
  = (Ok (dropna people_df "AGE"), sample_loader).
Proof.
  apply (drop_na_idempotent_and_commutes people_df "AGE" "B" sample_loader);
    simpl; compute_done.
Defined.

(** ** Rows and columns through the whole of [_preprocess] *)

Lemma survive_labels (R : Row -> Row -> Prop) l l' :
  (forall r r', R r r' -> label r' = label r) ->
  survive R l l' -> map label l' `sublist_of` map label l.
Proof.
  intros HR H. induction H as [|r r' l l' Hr H IH|r l l' H IH]; simpl.
  - constructor.
  - rewrite (HR _ _ Hr). by apply sublist_skip.
  - by apply sublist_cons.
Qed.

(** The series that [df.apply(f, axis=1)] returns carries the index of
    the table. *)
Lemma map_M_labels (f : Row -> M value) (l : list Row) self s self' :
  map_M (fun row => v ← f row; mret (label row, v)) l self = (Ok s, self') ->
  s.*1 = map label l.
Proof.
  revert self s. induction l as [|r l IH]; intros self s; simpl; unfold_monad.
  - by intros [= <- _].
  - destruct (f r self) as [[v|e] self1]; [|done].
    destruct (map_M _ l self1) as [[ys|e] self2] eqn:E; [|done].
    intros [= <- <-]. rewrite fmap_cons. simpl. f_equal. by eapply IH.
Qed.

Lemma df_apply_aligned (f : Row -> M value) :
  hook_aligned (fun df => df_apply df f).
Proof. intros df self s self' H. by eapply map_M_labels. Qed.

Section WholePass.

Variable int_of_str : string -> option Z.

Lemma _preprocess_loop_survive variables varnames df self df' self' :
  _preprocess_loop int_of_str variables varnames df self = (Ok df', self') ->
  survive (fun r r' => label r' = label r) (rows df) (rows df').
Proof.
  revert df self. induction varnames as [|w ws IH]; intros df self Hloop.
  - simpl in Hloop. unfold_monad. injection Hloop as <- <-.
    by apply survive_Forall2, Forall_Forall2_diag, Forall_forall.
  - rewrite _preprocess_loop_cons in Hloop.
    destruct (_preprocess_column _ _ _ _ _) as [[df1|e] self1] eqn:E1; [|done].
    apply _preprocess_column_Ok in E1 as (_ & _ & _ & Hs & _).
    eapply survive_trans; [|exact Hs|exact (IH _ _ Hloop)].
    intros r1 r2 r3 (L1 & _) L2. congruence.
Qed.

(** X8. With hooks that return their series on the index of the table
    they are given (as the hooks built on [df.apply] do), preprocessing
    never reorders, repeats or invents rows: when it completes, the index
    labels of the output table are, in order, labels of the input table
    (so they stay distinct when they were, and no row is added). *)
Theorem preprocess_keeps_row_order variables df self df' self' :
  (forall h, hook_of variables h -> hook_aligned h) ->
  _preprocess int_of_str variables df self = (Ok df', self') ->
  map label (rows df') `sublist_of` map label (rows df)
  /\ (NoDup (map label (rows df)) -> NoDup (map label (rows df')))
  /\ length (rows df') <= length (rows df).
Proof.
  intros Hhooks Hpre.
  assert (pass_aligned computation_pre variables) as Hal1.
  { intros w var h Hw Hk. apply Hhooks. exists w, var. split; [done|by left]. }
  assert (pass_aligned computation_post variables) as Hal3.
  { intros w var h Hw Hk. apply Hhooks. exists w, var. split; [done|by right]. }
  assert (map label (rows df') `sublist_of` map label (rows df)) as Hsub.
  { unfold _preprocess in Hpre. unfold_monad.
    destruct (_compute_derived variables computation_pre df self)
      as [[df1|e] self1] eqn:E1; [|done].
    destruct (_preprocess_loop _ _ _ _ _) as [[df2|e] self2] eqn:E2; [|done].
    apply _compute_derived_Ok in E1 as [H1 _].
    apply _compute_derived_Ok in Hpre as [H3 _].
    specialize (H1 (or_intror Hal1)). specialize (H3 (or_intror Hal3)).
    apply Forall2_same_but_labels in H1, H3.
    apply _preprocess_loop_survive in E2.
    rewrite H3, <- H1. eapply survive_labels; [|exact E2]. done. }
  split; [done|]. split.
  - intros Hnd. by eapply sublist_NoDup.
  - apply sublist_length in Hsub. by rewrite !length_map in Hsub.
Qed.

End WholePass.

Lemma preprocess_keeps_row_order_witness :
  exists df' self',
    _preprocess sample_int_of_str sample_variables people_df sample_loader
    = (Ok df', self')
    /\ map label (rows df') `sublist_of` [0; 1; 2]%nat.
Proof.
  assert (forall h, hook_of sample_variables h -> hook_aligned h) as Hhooks.
  { intros h (w & var & Hin & Hk). unfold sample_variables in Hin.
    sample_entries Hin; simpl in Hk; destruct Hk as [Hk|Hk]; try discriminate Hk.
    injection Hk as <-. apply df_apply_aligned. }
  destruct (_preprocess sample_int_of_str sample_variables people_df sample_loader)
    as [[df'|e] self'] eqn:E.
  2: { not_raised E. }
  exists df', self'. split; [reflexivity|].
  apply (preprocess_keeps_row_order sample_int_of_str sample_variables people_df
           sample_loader df' self' Hhooks E).
Defined.


Lemma _compute_derived_NoDup variables calculation_key df self df' self' :
  _compute_derived variables calculation_key df self = (Ok df', self') ->
  NoDup (columns df) -> NoDup (columns df').
Proof.
  revert df self. induction variables as [|[varname var] vs IH]; intros df self.
  - simpl. unfold_monad. by intros [= <- <-].
  - simpl. destruct (calculation_key var) as [[fun_|]|]; try apply IH.
    unfold_monad. destruct (fun_ df self) as [[s|e] self1]; [|done].
    destruct (df_setitem df varname s) as [df1|e] eqn:E1; [|done].
    intros H Hnd. eapply IH; [exact H|]. by eapply df_setitem_NoDup.
Qed.

Section Columns.

Variable int_of_str : string -> option Z.

Lemma _preprocess_column_NoDup variables df varname self df' self' :
  _preprocess_column int_of_str variables df varname self = (Ok df', self') ->
  NoDup (columns df) -> NoDup (columns df').
Proof.
  unfold _preprocess_column. unfold_monad.
  destruct (variables_getitem variables varname) as [vardata|e]; [|done].
  destruct (store_original df varname) as [df1|e] eqn:E1; [|done].
  destruct (convert_type vardata df1 varname) as [df2|e] eqn:E2; [|done].
  intros E3 Hnd.
  assert (NoDup (columns df1)) as Hnd1.
  { unfold store_original in E1. unfold_monad.
    destruct (df_getitem df varname) as [s|e]; [|done].
    by eapply df_setitem_NoDup. }
  assert (NoDup (columns df2)) as Hnd2.
  { unfold convert_type in E2. unfold_monad.
    destruct (type vardata); try (by injection E2 as <-).
    - destruct (df_getitem df1 varname) as [s|e]; [|done]. by injection E2 as <-.
    - destruct (labels vardata) as [lbls|]; [|done].
      destruct (df_getitem df1 varname) as [s|e]; [|done].
      destruct (coerce_category lbls s) as [s'|e]; [|done].
      by eapply df_setitem_NoDup. }
  unfold check_mandatory in E3. destruct (mandatory vardata).
  2: { unfold_monad. by injection E3 as <- <-. }
  unfold_monad.
  destruct (_drop_na df2 varname self) as [[df3|e] self3] eqn:Ed; [|done].
  assert (NoDup (columns df3)) as Hnd3.
  { unfold _drop_na in Ed. unfold_monad.
    destruct (df_getitem df2 varname) as [s|e]; [|done].
    destruct (bool_decide _).
    - destruct (for_each _ _ self) as [[[]|e] self4]; [|done].
      by injection Ed as <- <-.
    - by injection Ed as <- <-. }
  destruct (type vardata); try (by injection E3 as <- <-).
  unfold convert_int64 in E3. unfold_monad.
  destruct (df_getitem df3 varname) as [s|e]; [|done].
  destruct (astype_int64 int_of_str s) as [s'|e]; [|done].
  destruct (df_setitem df3 varname s') as [df4|e] eqn:E4; [|done].
  injection E3 as <- <-. by eapply df_setitem_NoDup.
Qed.

Lemma _preprocess_loop_columns_iff variables varnames df self df' self' :
  _preprocess_loop int_of_str variables varnames df self = (Ok df', self') ->
  (NoDup (columns df) -> NoDup (columns df'))
  /\ forall c,
       c ∈ columns df'
       <-> c ∈ columns df \/ exists w, w ∈ varnames /\ c = w +:+ "_ORIGINAL".
Proof.
  revert df self. induction varnames as [|w ws IH]; intros df self Hloop.
  - simpl in Hloop. unfold_monad. injection Hloop as <- <-. split; [done|].
    intros c. split; [by left|]. intros [?|(w & Hw & _)]; [done|].
    by apply elem_of_nil in Hw.
  - rewrite _preprocess_loop_cons in Hloop.
    destruct (_preprocess_column _ _ _ _ _) as [[df1|e] self1] eqn:E1; [|done].
    pose proof (_preprocess_column_NoDup _ _ _ _ _ _ E1) as Hnd1.
    apply _preprocess_column_Ok in E1 as (_ & _ & _ & _ & Hcols & _).
    destruct (IH _ _ Hloop) as [Hnd Hc]. split; [auto|].
    intros c. rewrite Hc, Hcols. split.
    + intros [[?| ->]|(w' & Hw' & ->)]; [by left| |].
      * right. exists w. split; [by left|done].
      * right. exists w'. split; [by right|done].
    + intros [?|(w' & Hw' & ->)]; [by left; left|].
      apply elem_of_cons in Hw' as [->|Hw']; [by left; right|].
      right. by exists w'.
Qed.

(** X9. Preprocessing never removes a column and adds no column but the
    derived variables and the snapshots: when it completes, the columns of
    the output are those of the input, the variables with a hook of the
    first pass, the snapshot <w>_ORIGINAL of each of these, and the
    variables with a hook of the last pass; and distinct column names stay
    distinct. *)
Theorem preprocess_columns variables df self df' self' :
  _preprocess int_of_str variables df self = (Ok df', self') ->
  (NoDup (columns df) -> NoDup (columns df'))
  /\ forall c,
       c ∈ columns df'
       <-> c ∈ columns df
           \/ c ∈ derived_names computation_pre variables
           \/ (exists w,
                 (w ∈ columns df \/ w ∈ derived_names computation_pre variables)
                 /\ c = w +:+ "_ORIGINAL")
           \/ c ∈ derived_names computation_post variables.
Proof.
  intros Hpre. unfold _preprocess in Hpre. unfold_monad.
  destruct (_compute_derived variables computation_pre df self)
    as [[df1|e] self1] eqn:E1; [|done].
  destruct (_preprocess_loop _ _ _ _ _) as [[df2|e] self2] eqn:E2; [|done].
  pose proof (_compute_derived_NoDup _ _ _ _ _ _ E1) as Hnd1.
  pose proof (_compute_derived_NoDup _ _ _ _ _ _ Hpre) as Hnd3.
  apply _compute_derived_Ok in E1 as [_ Hc1].
  apply _compute_derived_Ok in Hpre as [_ Hc3].
  apply _preprocess_loop_columns_iff in E2 as [Hnd2 Hc2].
  split; [auto|]. intros c. rewrite Hc3, Hc2, Hc1. split.
  - intros [[[?|?]|(w & Hw & ->)]|?]; [tauto|tauto| |tauto].
    right. right. left. exists w. split; [|done]. by apply Hc1.
  - intros [?|[?|[(w & Hw & ->)|?]]]; [tauto|tauto| |tauto].
    left. right. exists w. split; [|done]. by apply Hc1.
Qed.

End Columns.

Lemma preprocess_columns_witness :
  exists df' self',
    _preprocess sample_int_of_str sample_variables people_df sample_loader
    = (Ok df', self')
    /\ NoDup (columns df')
    /\ "AB_ORIGINAL" ∈ columns df'.
Proof.
  destruct (_preprocess sample_int_of_str sample_variables people_df sample_loader)
    as [[df'|e] self'] eqn:E.
  2: { not_raised E. }
  exists df', self'. split; [reflexivity|].
  destruct (preprocess_columns sample_int_of_str sample_variables people_df
              sample_loader df' self' E) as [Hnd Hc].
  clear E. split.
  - apply Hnd. simpl. compute_done.
  - apply Hc. right. right. left. exists "AB". split; [|reflexivity].
    right. vm_compute. left.
Defined.

(** ** What the loop logs and drops *)

Lemma survive_length (R : Row -> Row -> Prop) l l' :
  survive R l l' -> length l' <= length l.
Proof. induction 1; simpl; lia. Qed.

Lemma survive_same_length (R : Row -> Row -> Prop) l l' :
  (forall r r', R r r' -> label r' = label r) ->
  survive R l l' -> length l' = length l -> map label l' = map label l.
Proof.
  intros HR H. induction H as [|r r' l l' Hr H IH|r l l' H IH]; simpl; intros Hlen.
  - done.
  - rewrite (HR _ _ Hr), IH; [done|lia].
  - apply survive_length in H. lia.
Qed.


Section Accounting.

Variable int_of_str : string -> option Z.

Lemma _preprocess_column_accounting variables df varname self df' self' :
  _preprocess_column int_of_str variables df varname self = (Ok df', self') ->
  exists ws,
    self' = logged self ws
    /\ length ws + length (rows df') = length (rows df)
    /\ Forall (fun w : string * string => w.2 = varname +:+ " perdida") ws
    /\ (forall vardata,
          variables_getitem variables varname = Ok vardata ->
          mandatory vardata = false -> ws = []).
Proof.
  unfold _preprocess_column. unfold_monad.
  destruct (variables_getitem variables varname) as [vardata|e]; [|done].
  destruct (store_original df varname) as [df1|e] eqn:E1; [|done].
  destruct (convert_type vardata df1 varname) as [df2|e] eqn:E2; [|done].
  apply store_original_Ok in E1 as (Hin & Hrows1 & Hcols1).
  assert (varname ∈ columns df1) as Hin1 by (apply Hcols1; by left).
  apply (convert_type_Ok _ _ _ _ Hin1) in E2 as (Hrows2 & Hcols2).
  assert (varname ∈ columns df2) as Hin2 by by apply Hcols2.
  assert (length (rows df2) = length (rows df)) as Hlen2.
  { apply Forall2_length in Hrows2. rewrite <- Hrows2, Hrows1.
    by rewrite length_map. }
  unfold check_mandatory. destruct (mandatory vardata) eqn:Hm.
  2: { unfold_monad. intros [= <- <-]. exists []. rewrite logged_nil.
       split; [done|]. split; [simpl; lia|]. split; [constructor|done]. }
  unfold_monad. rewrite (_drop_na_eq _ _ _ Hin2). intros H.
  exists (map (fun row => (case_id_fun self row, varname +:+ " perdida"))
            (filter (fun row => isna (cell row varname) = true) (rows df2))).
  assert (length (rows df') = length (rows (dropna df2 varname))
          /\ self' = logged self
                       (map (fun row => (case_id_fun self row, varname +:+ " perdida"))
                          (filter (fun row => isna (cell row varname) = true)
                             (rows df2)))) as [Hlen' ->].
  { destruct (type vardata); try (by injection H as <- <-).
    destruct (convert_int64 _ _ _) as [df3|e] eqn:E3; [|done].
    injection H as <- <-. apply convert_int64_Ok in E3 as (Hrows3 & _).
    apply Forall2_length in Hrows3. by rewrite Hrows3. }
  split; [done|]. split.
  - rewrite length_map, Hlen'. simpl. rewrite <- Hlen2.
    apply length_filter_missing.
  - split.
    + apply Forall_forall. intros w Hw.
      by apply list_elem_of_fmap in Hw as (row & -> & _).
    + intros vardata' [= <-] Hm'. congruence.
Qed.

(** X10. The loop of [_preprocess] logs only "perdida" warnings, one per
    row it drops: when it completes, the log has grown by exactly as many
    entries as the table has lost rows, and each new entry reads
    "<V> perdida" for one of the columns V the loop went through. *)
Theorem loop_logs_one_warning_per_dropped_row variables varnames df self df' self' :
  _preprocess_loop int_of_str variables varnames df self = (Ok df', self') ->
  exists ws,
    self' = logged self ws
    /\ length ws + length (rows df') = length (rows df)
    /\ Forall (fun w : string * string =>
                 exists v, v ∈ varnames /\ w.2 = v +:+ " perdida") ws.
Proof.
  revert df self. induction varnames as [|w ws IH]; intros df self Hloop.
  - simpl in Hloop. unfold_monad. injection Hloop as <- <-. exists [].
    rewrite logged_nil. split; [done|]. split; [simpl; lia|constructor].
  - rewrite _preprocess_loop_cons in Hloop.
    destruct (_preprocess_column _ _ _ _ _) as [[df1|e] self1] eqn:E1; [|done].
    apply _preprocess_column_accounting in E1 as (ws1 & -> & Hlen1 & Hall1 & _).
    destruct (IH _ _ Hloop) as (ws2 & -> & Hlen2 & Hall2).
    exists (ws1 ++ ws2). rewrite logged_logged. split; [done|].
    split; [rewrite length_app; lia|].
    apply Forall_app. split.
    + eapply Forall_impl; [exact Hall1|]. intros x Hx. exists w. split; [by left|done].
    + eapply Forall_impl; [exact Hall2|]. intros x (v & Hv & Hx).
      exists v. split; [by right|done].
Qed.

(** X11. With no mandatory variable in the registry the loop drops no
    row and logs nothing: when it completes, the loader is as it was and
    the table has the same index. *)
Theorem loop_without_mandatory_keeps_rows variables varnames df self df' self' :
  (forall varname vardata,
     (varname, vardata) ∈ variables -> mandatory vardata = false) ->
  _preprocess_loop int_of_str variables varnames df self = (Ok df', self') ->
  self' = self /\ map label (rows df') = map label (rows df).
Proof.
  intros Hnone. revert df self.
  induction varnames as [|w ws IH]; intros df self Hloop.
  - simpl in Hloop. unfold_monad. by injection Hloop as <- <-.
  - rewrite _preprocess_loop_cons in Hloop.
    destruct (_preprocess_column _ _ _ _ _) as [[df1|e] self1] eqn:E1; [|done].
    pose proof (_preprocess_column_accounting _ _ _ _ _ _ E1)
      as (ws1 & Hself1 & Hlen1 & _ & Hnil).
    apply _preprocess_column_Ok in E1 as (vardata & Hvar & _ & Hs & _).
    assert (ws1 = []) as Hws1.
    { apply (Hnil vardata Hvar), (Hnone w). by apply variables_getitem_elem. }
    subst ws1. rewrite logged_nil in Hself1. subst self1.
    destruct (IH _ _ Hloop) as [-> Hlab].
    split; [done|]. rewrite Hlab.
    apply (survive_same_length (column_step w)); [by intros r r' [Hl _]|done|].
    simpl in Hlen1. lia.
Qed.

End Accounting.

Lemma loop_logs_one_warning_per_dropped_row_witness :
  exists df' self' ws,
    _preprocess_loop sample_int_of_str sample_variables (columns people_df)
      people_df sample_loader = (Ok df', self')
    /\ self' = logged sample_loader ws
    /\ length ws + length (rows df') = 3%nat.
Proof.
  destruct (_preprocess_loop sample_int_of_str sample_variables (columns people_df)
              people_df sample_loader) as [[df'|e] self'] eqn:E.
  2: { not_raised E. }
  destruct (loop_logs_one_warning_per_dropped_row sample_int_of_str
              sample_variables (columns people_df) people_df sample_loader
              df' self' E) as (ws & Hlog & Hlen & _).
  exists df', self', ws. split; [reflexivity|]. split; [exact Hlog|exact Hlen].
Defined.

Lemma loop_without_mandatory_keeps_rows_witness :
  exists df' self',
    _preprocess_loop sample_int_of_str clash_variables (columns clash_df)
      clash_df sample_loader = (Ok df', self')
    /\ self' = sample_loader
    /\ map label (rows df') = [0%nat].
Proof.
  assert (forall varname vardata,
            (varname, vardata) ∈ clash_variables -> mandatory vardata = false)
    as Hnone.
  { intros v var Hin. unfold clash_variables in Hin. by sample_entries Hin. }
  destruct (_preprocess_loop sample_int_of_str clash_variables (columns clash_df)
              clash_df sample_loader) as [[df'|e] self'] eqn:E.
  2: { not_raised E. }
  exists df', self'. split; [reflexivity|].
  apply (loop_without_mandatory_keeps_rows sample_int_of_str clash_variables
           (columns clash_df) clash_df sample_loader df' self' Hnone E).
Defined.

(** ** What typed columns hold after the loop *)

Section TypedColumns.

Variable int_of_str : string -> option Z.

Lemma astype_int64_cell_int64 v v' :
  astype_int64_cell int_of_str v = Ok v' -> int64_coded v'.
Proof.
  destruct v as [|b|q|s]; simpl; try done.
  - intros [= <-]. eexists. split; [done|].
    case_bool_decide; [done|]. unfold INT64_MIN, INT64_MAX. lia.
  - destruct (int_of_str s) as [z|]; [|done]. case_bool_decide; [|done].
    intros [= <-]. by exists z.
Qed.

Lemma astype_int64_int64 s s' :
  astype_int64 int_of_str s = Ok s' -> Forall (fun p => int64_coded p.2) s'.
Proof.
  unfold astype_int64. intros H. apply mapM_Result_Forall2 in H.
  induction H as [|p p' s s' Hp H IH]; [done|].
  unfold_monad. destruct (astype_int64_cell int_of_str p.2) as [v|e] eqn:Ev; [|done].
  injection Hp as <-. constructor; [|done]. simpl.
  by eapply astype_int64_cell_int64.
Qed.

Lemma convert_int64_int64 df varname df' :
  convert_int64 int_of_str df varname = Ok df' ->
  forall row, row ∈ rows df' -> int64_coded (cell row varname).
Proof.
  unfold convert_int64. unfold_monad.
  destruct (df_getitem df varname) as [s|e] eqn:Es; [|done].
  apply df_getitem_Ok in Es as [Hin ->].
  destruct (astype_int64 _ _) as [s'|e] eqn:Ec; [|done].
  pose proof (astype_int64_int64 _ _ Ec) as Hint.
  apply astype_int64_Ok in Ec as [Hlab _]. intros H.
  unfold df_setitem in H. rewrite bool_decide_true in H.
  2: { rewrite Hlab. unfold df_index. by rewrite <- list_fmap_compose. }
  injection H as <-. intros row Hrow. simpl in Hrow.
  apply elem_of_zip_with in Hrow as (r & p & -> & _ & Hp).
  rewrite cell_set_cell_eq. by apply (proj1 (Forall_forall _ _) Hint).
Qed.

Lemma pd_isin_zero_one v :
  pd_isin v [Num 0; Num 1] = true -> py_eq v (Num 0) = true \/ py_eq v (Num 1) = true.
Proof.
  unfold pd_isin. simpl. rewrite !andb_false_r, !orb_false_r.
  by intros [?|?]%orb_true_iff; [left|right].
Qed.

Lemma _preprocess_column_Bool variables df varname self df' self' vardata :
  _preprocess_column int_of_str variables df varname self = (Ok df', self') ->
  variables_getitem variables varname = Ok vardata ->
  type vardata = VarType.Bool ->
  forall row, row ∈ rows df' -> boolean_coded (cell row varname).
Proof.
  intros H Hvar Ht. unfold _preprocess_column in H. unfold_monad.
  rewrite Hvar in H.
  destruct (store_original df varname) as [df1|e] eqn:E1; [|done].
  destruct (convert_type vardata df1 varname) as [df2|e] eqn:E2; [|done].
  apply store_original_Ok in E1 as (Hin & Hrows1 & Hcols1).
  assert (varname ∈ columns df1) as Hin1 by (apply Hcols1; by left).
  pose proof (convert_type_Ok _ _ _ _ Hin1 E2) as (_ & Hcols2).
  assert (varname ∈ columns df2) as Hin2 by by apply Hcols2.
  assert (forall row, row ∈ rows df2 -> boolean_coded (cell row varname)) as Hbool.
  { unfold convert_type in E2. rewrite Ht in E2. unfold_monad.
    rewrite (df_getitem_column _ _ Hin1) in E2. injection E2 as <-.
    cbn [rows df_loc_setitem]. rewrite map_map, zip_with_rows_map.
    intros row Hrow.
    apply list_elem_of_fmap in Hrow as (r & -> & _). cbn [snd].
    change (negb _) with (negb (pd_isin (cell r varname) [Num 0; Num 1])).
    destruct (pd_isin (cell r varname) [Num 0; Num 1]) eqn:Eisin; cbn [negb].
    - right. by apply pd_isin_zero_one.
    - left. by rewrite cell_set_cell_eq. }
  assert (forall row, row ∈ rows df' -> row ∈ rows df2) as Hsub.
  { unfold check_mandatory in H. destruct (mandatory vardata).
    - unfold_monad. rewrite (_drop_na_eq _ _ _ Hin2), Ht in H.
      injection H as <- _. simpl. intros row Hrow.
      by apply list_elem_of_filter in Hrow as [_ ?].
    - unfold_monad. by injection H as <- _. }
  intros row Hrow. by apply Hbool, Hsub.
Qed.

Lemma _preprocess_column_Int variables df varname self df' self' vardata :
  _preprocess_column int_of_str variables df varname self = (Ok df', self') ->
  variables_getitem variables varname = Ok vardata ->
  type vardata = VarType.Int ->
  mandatory vardata = true ->
  forall row, row ∈ rows df' -> int64_coded (cell row varname).
Proof.
  intros H Hvar Ht Hm. unfold _preprocess_column in H. unfold_monad.
  rewrite Hvar in H.
  destruct (store_original df varname) as [df1|e] eqn:E1; [|done].
  destruct (convert_type vardata df1 varname) as [df2|e] eqn:E2; [|done].
  apply store_original_Ok in E1 as (Hin & Hrows1 & Hcols1).
  assert (varname ∈ columns df1) as Hin1 by (apply Hcols1; by left).
  pose proof (convert_type_Ok _ _ _ _ Hin1 E2) as (_ & Hcols2).
  assert (varname ∈ columns df2) as Hin2 by by apply Hcols2.
  unfold check_mandatory in H. rewrite Hm in H. unfold_monad.
  rewrite (_drop_na_eq _ _ _ Hin2), Ht in H.
  destruct (convert_int64 int_of_str (dropna df2 varname) varname)
    as [df3|e] eqn:E3; [|done].
  injection H as <- _. by apply (convert_int64_int64 _ _ _ E3).
Qed.

(** What the loop's step for [varname] establishes of the column stays
    true to the end of the loop, when no later step writes the column. *)
Lemma _preprocess_loop_column_post (P : value -> Prop)
    variables varnames df self df' self' varname :
  _preprocess_loop int_of_str variables varnames df self = (Ok df', self') ->
  NoDup varnames ->
  varname ∈ varnames ->
  (forall w, w ∈ varnames -> varname ≠ w +:+ "_ORIGINAL") ->
  (forall df0 self0 df1 self1,
     _preprocess_column int_of_str variables df0 varname self0 = (Ok df1, self1) ->
     forall row, row ∈ rows df1 -> P (cell row varname)) ->
  forall row, row ∈ rows df' -> P (cell row varname).
Proof.
  intros Hloop Hnd Hin Hfresh Hstep. revert df self Hloop Hnd Hin Hfresh.
  induction varnames as [|w ws IH]; intros df self Hloop Hnd Hin Hfresh.
  { by apply elem_of_nil in Hin. }
  rewrite _preprocess_loop_cons in Hloop.
  destruct (_preprocess_column _ _ _ _ _) as [[df1|e] self1] eqn:E1; [|done].
  apply NoDup_cons in Hnd as [Hw Hnd].
  destruct (decide (varname = w)) as [->|Hne].
  - intros row Hrow.
    assert (survive (fun r r' => label r' = label r /\ cell r' w = cell r w)
              (rows df1) (rows df')) as Hs.
    { eapply _preprocess_loop_frame; [exact Hloop|exact Hw|].
      intros w' Hw'. apply Hfresh. by right. }
    destruct (survive_elem _ _ _ _ Hs Hrow) as (r0 & Hr0 & _ & Hcell).
    rewrite Hcell. by eapply Hstep.
  - apply elem_of_cons in Hin as [?|Hin]; [done|].
    apply (IH _ _ Hloop Hnd Hin). intros w' Hw'. apply Hfresh. by right.
Qed.

(** X12. After the loop of [_preprocess], a column declared Bool holds
    only 0, 1 or the missing value, and only 0 or 1 when the variable is
    mandatory; this for a table without repeated column names and a
    column that is not the snapshot name <W>_ORIGINAL of another one. *)
Theorem bool_columns_hold_zero_one_or_missing
    variables varnames df self df' self' varname vardata :
  _preprocess_loop int_of_str variables varnames df self = (Ok df', self') ->
  NoDup varnames ->
  varname ∈ varnames ->
  (forall w, w ∈ varnames -> varname ≠ w +:+ "_ORIGINAL") ->
  variables_getitem variables varname = Ok vardata ->
  type vardata = VarType.Bool ->
  forall row, row ∈ rows df' ->
    boolean_coded (cell row varname)
    /\ (mandatory vardata = true ->
        py_eq (cell row varname) (Num 0) = true
        \/ py_eq (cell row varname) (Num 1) = true).
Proof.
  intros Hloop Hnd Hin Hfresh Hvar Ht.
  apply (_preprocess_loop_column_post
           (fun v => boolean_coded v
                     /\ (mandatory vardata = true ->
                         py_eq v (Num 0) = true \/ py_eq v (Num 1) = true))
           _ _ _ _ _ _ _ Hloop Hnd Hin Hfresh).
  intros df0 self0 df1 self1 E row Hrow.
  pose proof (_preprocess_column_Bool _ _ _ _ _ _ _ E Hvar Ht row Hrow) as Hb.
  split; [done|]. intros Hm.
  apply _preprocess_column_Ok in E as (vardata' & Hvar' & _ & _ & _ & Hnm).
  rewrite Hvar in Hvar'. injection Hvar' as <-.
  specialize (Hnm Hm row Hrow).
  destruct Hb as [Hna|Hb]; [congruence|done].
Qed.

(** X13. After the loop of [_preprocess], a mandatory column declared
    Int holds only whole numbers in the range of a 64-bit integer; this
    for a table without repeated column names and a column that is not
    the snapshot name <W>_ORIGINAL of another one. *)
Theorem mandatory_int_columns_hold_int64
    variables varnames df self df' self' varname vardata :
  _preprocess_loop int_of_str variables varnames df self = (Ok df', self') ->
  NoDup varnames ->
  varname ∈ varnames ->
  (forall w, w ∈ varnames -> varname ≠ w +:+ "_ORIGINAL") ->
  variables_getitem variables varname = Ok vardata ->
  type vardata = VarType.Int ->
  mandatory vardata = true ->
  forall row, row ∈ rows df' -> int64_coded (cell row varname).
Proof.
  intros Hloop Hnd Hin Hfresh Hvar Ht Hm.
  apply (_preprocess_loop_column_post int64_coded
           _ _ _ _ _ _ _ Hloop Hnd Hin Hfresh).
  intros df0 self0 df1 self1 E. by eapply _preprocess_column_Int.
Qed.

End TypedColumns.

Lemma bool_columns_hold_zero_one_or_missing_witness :
  exists df' self',
    _preprocess_loop sample_int_of_str sample_variables (columns people_df)
      people_df sample_loader = (Ok df', self')
    /\ forall row, row ∈ rows df' ->
         py_eq (cell row "SMOKER") (Num 0) = true
         \/ py_eq (cell row "SMOKER") (Num 1) = true.
Proof.
  assert (NoDup (columns people_df)) as Hnd by (simpl; compute_done).
  assert ("SMOKER" ∈ columns people_df) as Hin by (simpl; compute_done).
  assert (forall w, w ∈ columns people_df -> "SMOKER" ≠ w +:+ "_ORIGINAL")
    as Hfresh.
  { intros w Hw. simpl in Hw. by sample_rows Hw. }
  destruct (_preprocess_loop sample_int_of_str sample_variables (columns people_df)
              people_df sample_loader) as [[df'|e] self'] eqn:E.
  2: { not_raised E. }
  exists df', self'. split; [reflexivity|]. intros row Hrow.
  apply (bool_columns_hold_zero_one_or_missing sample_int_of_str sample_variables
           (columns people_df) people_df sample_loader df' self' "SMOKER"
           (plain VarType.Bool true) E Hnd Hin Hfresh eq_refl eq_refl row Hrow).
  reflexivity.
Defined.

Lemma mandatory_int_columns_hold_int64_witness :
  exists df' self',
    _preprocess_loop sample_int_of_str sample_variables (columns people_df)
      people_df sample_loader = (Ok df', self')
    /\ forall row, row ∈ rows df' -> int64_coded (cell row "AGE").
Proof.
  assert (NoDup (columns people_df)) as Hnd by (simpl; compute_done).
  assert ("AGE" ∈ columns people_df) as Hin by (simpl; compute_done).
  assert (forall w, w ∈ columns people_df -> "AGE" ≠ w +:+ "_ORIGINAL")
    as Hfresh.
  { intros w Hw. simpl in Hw. by sample_rows Hw. }
  destruct (_preprocess_loop sample_int_of_str sample_variables (columns people_df)
              people_df sample_loader) as [[df'|e] self'] eqn:E.
  2: { not_raised E. }
  exists df', self'. split; [reflexivity|].
  apply (mandatory_int_columns_hold_int64 sample_int_of_str sample_variables
           (columns people_df) people_df sample_loader df' self' "AGE"
           (plain VarType.Int true) E Hnd Hin Hfresh eq_refl eq_refl eq_refl).
Defined.

(** ** A computation key bound to None *)

Section NoneBound.

Variable int_of_str : string -> option Z.
Variable parse_field : string -> value.

Lemma elem_of_derived_names calculation_key (variables : Registry) c :
  c ∈ derived_names calculation_key variables ->
  exists var h, (c, var) ∈ variables /\ calculation_key var = Some (Some h).
Proof.
  unfold derived_names. rewrite list_elem_of_omap.
  intros ([name var] & Hin & H). simpl in H.
  destruct (calculation_key var) as [[h|]|] eqn:Ek; [|done..].
  injection H as ->. by exists var, h.
Qed.

Lemma registry_lookup_unique (variables : Registry) name var var' :
  NoDup variables.*1 ->
  (name, var) ∈ variables -> (name, var') ∈ variables -> var = var'.
Proof.
  intros Hnd H1 H2.
  apply (elem_of_list_to_map_1 (M := gmap string) _ _ _ Hnd) in H1, H2.
  congruence.
Qed.

(** X14. [load_data] decides what to read by the presence of a
    computation key, [_compute_derived] decides what to compute by the
    value bound to it: a variable that has a computation key bound to None
    (and no hook under the other key) is neither read nor computed, so the
    loaded table has no column of that name. *)
Theorem none_bound_computation_is_skipped variables files fname ctx na_values
    self df' self' ctx' name var :
  NoDup variables.*1 ->
  (name, var) ∈ variables ->
  computation_pre var = Some None \/ computation_post var = Some None ->
  (forall h, computation_pre var ≠ Some (Some h)) ->
  (forall h, computation_post var ≠ Some (Some h)) ->
  (forall w, w ∈ variables.*1 -> name ≠ w +:+ "_ORIGINAL") ->
  load_data int_of_str parse_field variables files fname ctx na_values self
  = (Ok df', self', ctx') ->
  name ∉ columns df'.
Proof.
  intros Hnd Hin Hnone Hpre Hpost Hfresh Hload. unfold load_data in Hload.
  destruct (read_csv _ _ _ _ _) as [df|e] eqn:Er; [|done].
  destruct (_preprocess _ _ _ _) as [[df2|e] self2] eqn:Ep; [|done].
  injection Hload as -> _ _.
  pose proof (read_csv_columns _ _ _ _ _ _ Er) as Hread.
  unfold _preprocess in Ep. unfold_monad.
  destruct (_compute_derived variables computation_pre df self)
    as [[df0|e] self0] eqn:E0; [|done].
  destruct (_preprocess_loop _ _ _ _ _) as [[df1|e] self1] eqn:E1; [|done].
  apply _compute_derived_Ok in E0 as [_ Hc0].
  apply _compute_derived_Ok in Ep as [_ Hc2].
  apply _preprocess_loop_columns_iff in E1 as [_ Hc1].
  assert (name ∉ csv_varnames variables) as Hcsv.
  { intros (var' & Hin' & Hp & Hq)%elem_of_csv_varnames.
    rewrite <- (registry_lookup_unique _ _ _ _ Hnd Hin Hin') in Hp, Hq.
    destruct Hnone; congruence. }
  assert (forall key,
            (forall h, key var ≠ Some (Some h)) ->
            name ∉ derived_names key variables) as Hder.
  { intros key Hkey (var' & h & Hin' & Hk)%elem_of_derived_names.
    rewrite <- (registry_lookup_unique _ _ _ _ Hnd Hin Hin') in Hk.
    by apply (Hkey h). }
  assert (forall w, w ∈ columns df0 -> w ∈ variables.*1) as Hdecl.
  { intros w [Hw|Hw]%Hc0.
    - apply Hread, elem_of_csv_varnames in Hw as (var' & Hin' & _).
      apply list_elem_of_fmap. by exists (w, var').
    - apply elem_of_derived_names in Hw as (var' & h & Hin' & _).
      apply list_elem_of_fmap. by exists (w, var'). }
  intros [[[Hc|Hc]%Hc0|(w & Hw & Heq)]%Hc1|Hc]%Hc2.
  - by apply Hcsv, Hread.
  - by apply (Hder computation_pre).
  - apply (Hfresh w); [by apply Hdecl|done].
  - by apply (Hder computation_post).
Qed.

End NoneBound.

Lemma none_bound_computation_is_skipped_witness :
  exists df' self' ctx',
    load_data sample_int_of_str sample_parse_field ghost_variables sample_files
      "people.csv" [] [" "] sample_loader = (Ok df', self', ctx')
    /\ "GHOST" ∉ columns df'.
Proof.
  assert (NoDup ghost_variables.*1) as Hnd by (simpl; compute_done).
  assert (forall w, w ∈ ghost_variables.*1 -> "GHOST" ≠ w +:+ "_ORIGINAL")
    as Hfresh.
  { intros w Hw. simpl in Hw. by sample_rows Hw. }
  destruct (load_data sample_int_of_str sample_parse_field ghost_variables
              sample_files "people.csv" [] [" "] sample_loader)
    as [[[df'|e] self'] ctx'] eqn:E.
  2: { apply (f_equal (fun r : Result DataFrame * DataLoader * ResultTree =>
                         is_ok r.1.1)) in E.
       vm_compute in E. discriminate E. }
  exists df', self', ctx'. split; [reflexivity|].
  apply (none_bound_computation_is_skipped sample_int_of_str sample_parse_field
           ghost_variables sample_files "people.csv" [] [" "] sample_loader
           df' self' ctx' "GHOST"
           {| type := VarType.Float; labels := None; mandatory := true;
              computation_pre := Some None; computation_post := None |}
           Hnd).
  - right. left.
  - by left.
  - done.
  - done.
  - exact Hfresh.
  - exact E.
Defined.

(** ** Text in a combined column *)

Section CombineErrors.

Variable format_value : value -> string.





End CombineErrors.

